(** * SheSafe sentinel: the audio session (services/geminiService.ts) and the
    arming controller (App.tsx), embedded as Rocq functions.

    - [Num], [Pcm]: JavaScript numbers as far as the code uses them,
      [floatTo16BitPCM] and the volume average.
    - The browser: handles, thrown values, what the browser answers and the
      list of what the page asked of it.
    - The page ([World]): React state, refs and the session object; a
      handler is a function from the page to a completion (normal or thrown)
      together with the page it leaves.
    - [SafetySentinel]'s methods, written against [SentinelCallbacks], and
      [App]'s handlers.  A handler that awaits the browser takes the answer
      from [answers]; [triggerAlert] is cut at its [await], where it leaves
      a [Suspended] call that the geolocation answer resumes; callbacks
      registered with [sessionPromise.then] wait in [reactions] until the
      microtasks run.
    - Facts about the handlers, then the properties. *)

From Stdlib Require Import ZArith QArith Qround Qabs Qminmax.
From Stdlib Require Import Bool String Ascii List Lia DecimalString.
Import ListNotations.

Set Implicit Arguments.

(* ================================================================== *)
(** ** JavaScript numbers *)
(* ================================================================== *)

Module Num.

(** An IEEE-754 value: NaN, an infinity, or a finite value, which is a
    rational.  The two products the encoder computes ([s * 0x8000] and
    [s * 0x7FFF] for a 32-bit float [s] with [|s| <= 1]) and the quotient the
    volume meter computes (a sum below 2^24 divided by 128) are exact in
    double precision, so rational arithmetic gives the same values. *)
Inductive Number : Type :=
| NaN
| Infinity (negative : bool)
| Finite (q : Q).

Definition Qlt_bool (a b : Q) : bool := negb (Qle_bool b a).

(** [a < b] of JavaScript: false as soon as one side is NaN. *)
Definition lt (a b : Number) : bool :=
  match a, b with
  | NaN, _ | _, NaN => false
  | Infinity true, Infinity true => false
  | Infinity true, _ => true
  | _, Infinity true => false
  | Infinity false, _ => false
  | _, Infinity false => true
  | Finite x, Finite y => Qlt_bool x y
  end.

(** [Math.min] and [Math.max] return NaN when an argument is NaN. *)
Definition Math_min (a b : Number) : Number :=
  match a, b with
  | NaN, _ | _, NaN => NaN
  | _, _ => if lt b a then b else a
  end.

Definition Math_max (a b : Number) : Number :=
  match a, b with
  | NaN, _ | _, NaN => NaN
  | _, _ => if lt a b then b else a
  end.

Definition is_zero (q : Q) : bool := Qeq_bool q 0.

(** [a * b]. *)
Definition mul (a b : Number) : Number :=
  match a, b with
  | NaN, _ | _, NaN => NaN
  | Finite x, Finite y => Finite (x * y)
  | Infinity n, Finite y | Finite y, Infinity n =>
      if is_zero y then NaN else Infinity (xorb n (Qlt_bool y 0))
  | Infinity n, Infinity m => Infinity (xorb n m)
  end.

(** The integer part of a rational, rounding towards zero. *)
Definition truncate (q : Q) : Z := Z.quot (Qnum q) (QDen q).

(** The conversion a store into an [Int16Array] applies (ToInt16): NaN and
    the infinities become 0, a finite value is truncated and wrapped modulo
    2^16 into [-2^15, 2^15). *)
Definition ToInt16 (x : Number) : Z :=
  match x with
  | NaN | Infinity _ => 0
  | Finite q =>
      let int16bit := (truncate q) mod 65536 in
      if 32768 <=? int16bit then int16bit - 65536 else int16bit
  end%Z.

(** [sum / n] for two non-negative integers. *)
Definition div_int (sum : Z) (n : Z) : Number :=
  if (n =? 0)%Z then (if (sum =? 0)%Z then NaN else Infinity false)
  else Finite (Qmake sum (Z.to_pos n)).

End Num.

(* ================================================================== *)
(** ** Audio encoding utilities and the volume average *)
(* ================================================================== *)

Module Pcm.
Import Num.

Definition Float32Array := list Number.
Definition Int16Array := list Z.
Definition Uint8Array := list Byte.byte.

(** One turn of the loop of [floatTo16BitPCM]. *)
Definition encode_sample (x : Number) : Z :=
  let s := Math_max (Finite (-1)) (Math_min (Finite 1) x) in
  ToInt16 (if lt s (Finite 0) then mul s (Finite 32768) else mul s (Finite 32767)).

(** [floatTo16BitPCM]: the output has one slot per input index and the loop
    fills every slot. *)
Definition floatTo16BitPCM (input : Float32Array) : Int16Array :=
  map encode_sample input.

Definition byte_val (b : Byte.byte) : Z := Z.of_N (Byte.to_N b).

(** The summing loop of the audio callback. *)
Definition sum_bins (dataArray : Uint8Array) : Z :=
  fold_left (fun sum b => (sum + byte_val b)%Z) dataArray 0%Z.

(** [sum / dataArray.length]. *)
Definition average (dataArray : Uint8Array) : Number :=
  div_int (sum_bins dataArray) (Z.of_nat (length dataArray)).

(** The clamp as [encode_sample] computes it on a finite sample, with its two
    comparisons. *)
Definition code_clamp (q : Q) : Q :=
  let m := if Qlt_bool q 1 then q else 1 in
  if Qlt_bool (-1) m then m else -1.

(** What the claim about the encoder compares with: the clamp into [-1, 1]
    (undefined for NaN) and the asymmetric scaling. *)
Definition clamp (x : Number) : option Q :=
  match x with
  | NaN => None
  | Infinity true => Some (-1)
  | Infinity false => Some 1
  | Finite q => Some (Qmax (-1) (Qmin 1 q))
  end.

Definition scale (s : Q) : Q :=
  if Qlt_bool s 0 then s * 32768 else s * 32767.

Definition pcm_sample_ok (x : Number) (z : Z) : Prop :=
  match clamp x with
  | None => z = 0%Z
  | Some s => Qabs (inject_Z z - scale s) < 1 /\ (-32768 <= z <= 32767)%Z
  end.

End Pcm.

(* ================================================================== *)
(** ** The browser: handles, thrown values, answers and requests *)
(* ================================================================== *)

Import Num Pcm.
Open Scope string_scope.
Open Scope list_scope.

Definition MediaStream := nat.
Definition AudioContext := nat.
Definition ScriptProcessorNode := AudioContext.   (* the node of that context *)
Definition WakeLockSentinel := nat.

(** A thrown value: an [Error] (and [DOMException]) carries a name and a
    message, anything else fails [instanceof Error]. *)
Inductive Thrown : Type :=
| ErrorObject (name message : string)
| NonError.

Inductive MediaKind : Type := Video | Audio.

Inductive GeoOutcome : Type :=
| GeoPosition (latitude longitude : Number)
| GeoPermissionDenied
| GeoPositionUnavailable
| GeoTimeout.

Inductive WakeLockAnswer : Type :=
| WakeUnsupported                       (* no [wakeLock] in [navigator] *)
| WakeRejected
| WakeGranted (h : WakeLockSentinel).

(** How the browser answers what a handler asks of it. *)
Record Answers : Type := {
  camera : MediaStream + Thrown;          (* getUserMedia({video}) *)
  microphone : MediaStream + Thrown;      (* getUserMedia({audio}) *)
  newAudioContext : AudioContext + Thrown;
  wakeLock : WakeLockAnswer;
  getContext2d : bool;                    (* getContext('2d') is not null *)
  drawImage : option Thrown;
  toDataURL : string + Thrown;
  now : Z                                 (* new Date() *)
}.

(** What the page asked of the browser, in order. *)
Inductive Effect : Type :=
| GetUserMedia (k : MediaKind) (granted : option MediaStream)
| TrackStop (s : MediaStream)
| NewAudioContext (c : AudioContext)
| ProcessorConnect (p : ScriptProcessorNode)
| ProcessorDisconnect (p : ScriptProcessorNode)
| ContextClose (c : AudioContext)
| LiveConnect
| LiveClose                               (* session.close(): never issued *)
| SendRealtimeInput (pcm : Int16Array)
| SendToolResponse (id name result : string)
| WakeLockRequest (granted : option WakeLockSentinel)
| WakeLockRelease (h : WakeLockSentinel)
| GetCurrentPosition
| ConsoleLog (line : string)
| UnhandledRejection (name : string).

(* ================================================================== *)
(** ** Data of App.tsx and geminiService.ts *)
(* ================================================================== *)

Inductive Status : Type := IDLE | CONNECTING | ARMED | DANGER.

Record EmergencyContact : Type := { name : string; phone : string }.

Record AlertLog : Type := {
  timestamp : Z;
  type : string;
  emotion : string;
  location : option string;
  imageUrl : option string;
  isSilent : bool
}.

Record ErrorState : Type := {
  show : bool;
  title : string;
  message : string;
  action : option string
}.

(** The values of the state variables one render of [App] closes over; a
    handler created in a render keeps reading these. *)
Record Render : Type := {
  r_isArmed : bool;
  r_status : Status;
  r_contact : EmergencyContact;
  r_silentMode : bool
}.

Record HTMLVideoElement : Type := {
  srcObject : option MediaStream;
  videoWidth : Z;
  videoHeight : Z
}.

Record HTMLCanvasElement : Type := { width : Z; height : Z }.

Record AnalyserNode : Type := { fftSize : Z; smoothingTimeConstant : Q }.

Definition frequencyBinCount (a : AnalyserNode) : Z := fftSize a / 2.

(** Messages of the live connection. *)
Record Args : Type := {
  reason : string;
  arg_emotion : string;
  confidence : option Q
}.

Record FunctionCall : Type := { fc_id : string; fc_name : string; fc_args : Args }.

Record LiveServerMessage : Type := { toolCall : option (list FunctionCall) }.

(** The promise [ai.live.connect] returns, with the callbacks registered on
    it by [then] that have not run yet. *)
Inductive PromiseState : Type := Pending | Fulfilled | Rejected.

Inductive Reaction : Type :=
| ThenSendRealtimeInput (pcm : Int16Array)
| ThenSendToolResponse (id name result : string).

(** A [SafetySentinel] object.  [callbacks] holds the render the callbacks
    were created in; [sessionPromise] and [reactions] are the local of
    [start] that its closures share.  The field [session] of the class is
    never assigned and is left out. *)
Record SafetySentinel : Type := {
  audioContext : option AudioContext;
  mediaStream : option MediaStream;
  processor : option ScriptProcessorNode;
  analyser : option AnalyserNode;
  callbacks : Render;
  isConnected : bool;
  sessionPromise : option PromiseState;
  reactions : list Reaction
}.

(** A call of [triggerAlert] suspended in [captureEvidence], waiting for the
    geolocation answer. *)
Record Suspended : Type := {
  s_env : Render;
  s_reason : string;
  s_emotion : string
}.

(** The whole page: React state, refs, and the browser side. *)
Record World : Type := {
  isArmed : bool;
  status : Status;
  contact : EmergencyContact;
  logs : list AlertLog;
  volume : Number;
  silentMode : bool;
  blackoutMode : bool;
  errorState : ErrorState;
  sentinelRef : option SafetySentinel;
  videoRef : option HTMLVideoElement;
  canvasRef : option HTMLCanvasElement;
  wakeLockRef : option WakeLockSentinel;
  answers : Answers;
  effects : list Effect;
  suspended : list Suspended
}.

Definition render (w : World) : Render :=
  {| r_isArmed := isArmed w; r_status := status w;
     r_contact := contact w; r_silentMode := silentMode w |}.

(** *** Field updates *)

Definition set_isArmed (v : bool) (w : World) : World :=
  {| isArmed := v; status := status w; contact := contact w; logs := logs w;
     volume := volume w; silentMode := silentMode w;
     blackoutMode := blackoutMode w; errorState := errorState w;
     sentinelRef := sentinelRef w; videoRef := videoRef w;
     canvasRef := canvasRef w; wakeLockRef := wakeLockRef w;
     answers := answers w; effects := effects w; suspended := suspended w |}.

Definition set_status (v : Status) (w : World) : World :=
  {| isArmed := isArmed w; status := v; contact := contact w; logs := logs w;
     volume := volume w; silentMode := silentMode w;
     blackoutMode := blackoutMode w; errorState := errorState w;
     sentinelRef := sentinelRef w; videoRef := videoRef w;
     canvasRef := canvasRef w; wakeLockRef := wakeLockRef w;
     answers := answers w; effects := effects w; suspended := suspended w |}.

Definition set_contact (v : EmergencyContact) (w : World) : World :=
  {| isArmed := isArmed w; status := status w; contact := v; logs := logs w;
     volume := volume w; silentMode := silentMode w;
     blackoutMode := blackoutMode w; errorState := errorState w;
     sentinelRef := sentinelRef w; videoRef := videoRef w;
     canvasRef := canvasRef w; wakeLockRef := wakeLockRef w;
     answers := answers w; effects := effects w; suspended := suspended w |}.

Definition set_logs (v : list AlertLog) (w : World) : World :=
  {| isArmed := isArmed w; status := status w; contact := contact w; logs := v;
     volume := volume w; silentMode := silentMode w;
     blackoutMode := blackoutMode w; errorState := errorState w;
     sentinelRef := sentinelRef w; videoRef := videoRef w;
     canvasRef := canvasRef w; wakeLockRef := wakeLockRef w;
     answers := answers w; effects := effects w; suspended := suspended w |}.

Definition set_volume (v : Number) (w : World) : World :=
  {| isArmed := isArmed w; status := status w; contact := contact w;
     logs := logs w; volume := v; silentMode := silentMode w;
     blackoutMode := blackoutMode w; errorState := errorState w;
     sentinelRef := sentinelRef w; videoRef := videoRef w;
     canvasRef := canvasRef w; wakeLockRef := wakeLockRef w;
     answers := answers w; effects := effects w; suspended := suspended w |}.

Definition set_silentMode (v : bool) (w : World) : World :=
  {| isArmed := isArmed w; status := status w; contact := contact w;
     logs := logs w; volume := volume w; silentMode := v;
     blackoutMode := blackoutMode w; errorState := errorState w;
     sentinelRef := sentinelRef w; videoRef := videoRef w;
     canvasRef := canvasRef w; wakeLockRef := wakeLockRef w;
     answers := answers w; effects := effects w; suspended := suspended w |}.

Definition set_blackoutMode (v : bool) (w : World) : World :=
  {| isArmed := isArmed w; status := status w; contact := contact w;
     logs := logs w; volume := volume w; silentMode := silentMode w;
     blackoutMode := v; errorState := errorState w;
     sentinelRef := sentinelRef w; videoRef := videoRef w;
     canvasRef := canvasRef w; wakeLockRef := wakeLockRef w;
     answers := answers w; effects := effects w; suspended := suspended w |}.

Definition set_errorState (v : ErrorState) (w : World) : World :=
  {| isArmed := isArmed w; status := status w; contact := contact w;
     logs := logs w; volume := volume w; silentMode := silentMode w;
     blackoutMode := blackoutMode w; errorState := v;
     sentinelRef := sentinelRef w; videoRef := videoRef w;
     canvasRef := canvasRef w; wakeLockRef := wakeLockRef w;
     answers := answers w; effects := effects w; suspended := suspended w |}.

Definition set_sentinelRef (v : option SafetySentinel) (w : World) : World :=
  {| isArmed := isArmed w; status := status w; contact := contact w;
     logs := logs w; volume := volume w; silentMode := silentMode w;
     blackoutMode := blackoutMode w; errorState := errorState w;
     sentinelRef := v; videoRef := videoRef w;
     canvasRef := canvasRef w; wakeLockRef := wakeLockRef w;
     answers := answers w; effects := effects w; suspended := suspended w |}.

Definition set_videoRef (v : option HTMLVideoElement) (w : World) : World :=
  {| isArmed := isArmed w; status := status w; contact := contact w;
     logs := logs w; volume := volume w; silentMode := silentMode w;
     blackoutMode := blackoutMode w; errorState := errorState w;
     sentinelRef := sentinelRef w; videoRef := v;
     canvasRef := canvasRef w; wakeLockRef := wakeLockRef w;
     answers := answers w; effects := effects w; suspended := suspended w |}.

Definition set_canvasRef (v : option HTMLCanvasElement) (w : World) : World :=
  {| isArmed := isArmed w; status := status w; contact := contact w;
     logs := logs w; volume := volume w; silentMode := silentMode w;
     blackoutMode := blackoutMode w; errorState := errorState w;
     sentinelRef := sentinelRef w; videoRef := videoRef w;
     canvasRef := v; wakeLockRef := wakeLockRef w;
     answers := answers w; effects := effects w; suspended := suspended w |}.

Definition set_wakeLockRef (v : option WakeLockSentinel) (w : World) : World :=
  {| isArmed := isArmed w; status := status w; contact := contact w;
     logs := logs w; volume := volume w; silentMode := silentMode w;
     blackoutMode := blackoutMode w; errorState := errorState w;
     sentinelRef := sentinelRef w; videoRef := videoRef w;
     canvasRef := canvasRef w; wakeLockRef := v;
     answers := answers w; effects := effects w; suspended := suspended w |}.

Definition set_answers (v : Answers) (w : World) : World :=
  {| isArmed := isArmed w; status := status w; contact := contact w;
     logs := logs w; volume := volume w; silentMode := silentMode w;
     blackoutMode := blackoutMode w; errorState := errorState w;
     sentinelRef := sentinelRef w; videoRef := videoRef w;
     canvasRef := canvasRef w; wakeLockRef := wakeLockRef w;
     answers := v; effects := effects w; suspended := suspended w |}.

Definition set_effects (v : list Effect) (w : World) : World :=
  {| isArmed := isArmed w; status := status w; contact := contact w;
     logs := logs w; volume := volume w; silentMode := silentMode w;
     blackoutMode := blackoutMode w; errorState := errorState w;
     sentinelRef := sentinelRef w; videoRef := videoRef w;
     canvasRef := canvasRef w; wakeLockRef := wakeLockRef w;
     answers := answers w; effects := v; suspended := suspended w |}.

Definition set_suspended (v : list Suspended) (w : World) : World :=
  {| isArmed := isArmed w; status := status w; contact := contact w;
     logs := logs w; volume := volume w; silentMode := silentMode w;
     blackoutMode := blackoutMode w; errorState := errorState w;
     sentinelRef := sentinelRef w; videoRef := videoRef w;
     canvasRef := canvasRef w; wakeLockRef := wakeLockRef w;
     answers := answers w; effects := effects w; suspended := v |}.

Definition set_isConnected (v : bool) (s : SafetySentinel) : SafetySentinel :=
  {| audioContext := audioContext s; mediaStream := mediaStream s;
     processor := processor s; analyser := analyser s;
     callbacks := callbacks s; isConnected := v;
     sessionPromise := sessionPromise s; reactions := reactions s |}.

Definition set_mediaStream (v : option MediaStream) (s : SafetySentinel)
  : SafetySentinel :=
  {| audioContext := audioContext s; mediaStream := v;
     processor := processor s; analyser := analyser s;
     callbacks := callbacks s; isConnected := isConnected s;
     sessionPromise := sessionPromise s; reactions := reactions s |}.

Definition set_audioContext (v : option AudioContext) (s : SafetySentinel)
  : SafetySentinel :=
  {| audioContext := v; mediaStream := mediaStream s;
     processor := processor s; analyser := analyser s;
     callbacks := callbacks s; isConnected := isConnected s;
     sessionPromise := sessionPromise s; reactions := reactions s |}.

Definition set_processor (v : option ScriptProcessorNode) (s : SafetySentinel)
  : SafetySentinel :=
  {| audioContext := audioContext s; mediaStream := mediaStream s;
     processor := v; analyser := analyser s;
     callbacks := callbacks s; isConnected := isConnected s;
     sessionPromise := sessionPromise s; reactions := reactions s |}.

Definition set_analyser (v : option AnalyserNode) (s : SafetySentinel)
  : SafetySentinel :=
  {| audioContext := audioContext s; mediaStream := mediaStream s;
     processor := processor s; analyser := v;
     callbacks := callbacks s; isConnected := isConnected s;
     sessionPromise := sessionPromise s; reactions := reactions s |}.

Definition set_sessionPromise (v : option PromiseState) (s : SafetySentinel)
  : SafetySentinel :=
  {| audioContext := audioContext s; mediaStream := mediaStream s;
     processor := processor s; analyser := analyser s;
     callbacks := callbacks s; isConnected := isConnected s;
     sessionPromise := v; reactions := reactions s |}.

Definition set_reactions (v : list Reaction) (s : SafetySentinel)
  : SafetySentinel :=
  {| audioContext := audioContext s; mediaStream := mediaStream s;
     processor := processor s; analyser := analyser s;
     callbacks := callbacks s; isConnected := isConnected s;
     sessionPromise := sessionPromise s; reactions := v |}.

(* ================================================================== *)
(** ** Completions: a handler ends normally or by a thrown value *)
(* ================================================================== *)

(** Either way the world as the handler left it is kept: what was assigned
    before a throw stays assigned. *)
Inductive Completion (A : Type) : Type :=
| Normal (a : A) (w : World)
| Abrupt (e : Thrown) (w : World).

Arguments Normal {A} a w.
Arguments Abrupt {A} e w.

Definition M (A : Type) : Type := World -> Completion A.

Definition ret {A} (a : A) : M A := fun w => Normal a w.

Definition bind {A B} (c : M A) (k : A -> M B) : M B :=
  fun w => match c w with
           | Normal a w' => k a w'
           | Abrupt e w' => Abrupt e w'
           end.

Definition throw {A} (e : Thrown) : M A := fun w => Abrupt e w.

(** [try { c } catch (e) { h e }]. *)
Definition try_catch {A} (c : M A) (h : Thrown -> M A) : M A :=
  fun w => match c w with
           | Normal a w' => Normal a w'
           | Abrupt e w' => h e w'
           end.

Definition get : M World := fun w => Normal w w.
Definition modify (f : World -> World) : M unit := fun w => Normal tt (f w).
Definition perform (e : Effect) : M unit :=
  modify (fun w => set_effects (effects w ++ [e]) w).

Definition world_of {A} (c : Completion A) : World :=
  match c with Normal _ w => w | Abrupt _ w => w end.

Definition threw {A} (c : Completion A) : bool :=
  match c with Normal _ _ => false | Abrupt _ _ => true end.

Declare Scope js_scope.
Delimit Scope js_scope with js.
Notation "x <- c ;; k" := (bind c (fun x => k))
  (at level 61, c at next level, right associativity) : js_scope.
Notation "c ;; k" := (bind c (fun _ => k))
  (at level 61, right associativity) : js_scope.
Open Scope js_scope.

(* ================================================================== *)
(** ** services/geminiService.ts: class SafetySentinel *)
(* ================================================================== *)

(** [interface SentinelCallbacks]. *)
Record SentinelCallbacks : Type := {
  onConnect : M unit;
  onDisconnect : M unit;
  onEmergencyTriggered : string -> string -> M unit;
  onError : string -> M unit;
  onVolumeChange : option (Number -> M unit)
}.

(** [new SafetySentinel(callbacks)]: the field initialisers of the class. *)
Definition SafetySentinel_new (cb : Render) : SafetySentinel :=
  {| audioContext := None; mediaStream := None; processor := None;
     analyser := None; callbacks := cb; isConnected := false;
     sessionPromise := None; reactions := [] |}.

(** The object a method runs on is the one [sentinelRef] points to; calling
    a method through a null reference is a TypeError. *)
Definition this : M SafetySentinel :=
  fun w => match sentinelRef w with
           | Some s => Normal s w
           | None => Abrupt (ErrorObject "TypeError" "null reference") w
           end.

Definition update_this (f : SafetySentinel -> SafetySentinel) : M unit :=
  modify (fun w => set_sentinelRef (option_map f (sentinelRef w)) w).

(** [navigator.mediaDevices.getUserMedia]. *)
Definition getUserMedia (k : MediaKind) : M MediaStream :=
  w <- get ;;
  match (match k with Video => camera | Audio => microphone end) (answers w) with
  | inl stream => perform (GetUserMedia k (Some stream)) ;; ret stream
  | inr e => perform (GetUserMedia k None) ;; throw e
  end.

Definition new_AudioContext : M AudioContext :=
  w <- get ;;
  match newAudioContext (answers w) with
  | inl c => perform (NewAudioContext c) ;; ret c
  | inr e => throw e
  end.

Definition is_close_of (c : AudioContext) (e : Effect) : bool :=
  match e with ContextClose c' => Nat.eqb c c' | _ => false end.

(** [audioContext.close()] returns a promise, which the caller drops.  The
    Web Audio API rejects that promise with InvalidStateError when the
    context is closed already; nothing is thrown to the caller. *)
Definition AudioContext_close (c : AudioContext) : M unit :=
  w <- get ;;
  if existsb (is_close_of c) (effects w)
  then perform (ContextClose c) ;; perform (UnhandledRejection "InvalidStateError")
  else perform (ContextClose c).

(** [sessionPromise.then(session => ...)]. *)
Definition then_ (r : Reaction) : M unit :=
  update_this (fun s => set_reactions (reactions s ++ [r]) s).

Definition run_reaction (r : Reaction) : Effect :=
  match r with
  | ThenSendRealtimeInput pcm => SendRealtimeInput pcm
  | ThenSendToolResponse id nm result => SendToolResponse id nm result
  end.

(** The reactions of the session promise run, in the order of their
    registration, once the promise is fulfilled and the running handler has
    returned; those of a rejected promise never run. *)
Definition microtasks : M unit :=
  w <- get ;;
  match sentinelRef w with
  | Some s =>
      match sessionPromise s with
      | Some Fulfilled =>
          modify (fun w => set_effects (effects w ++ map run_reaction (reactions s)) w) ;;
          update_this (set_reactions [])
      | Some Rejected => update_this (set_reactions [])
      | _ => ret tt
      end
  | None => ret tt
  end.

(** [new Uint8Array(n)] filled by [analyser.getByteFrequencyData]. *)
Definition getByteFrequencyData (a : AnalyserNode) (bins : Uint8Array) : Uint8Array :=
  let n := Z.to_nat (frequencyBinCount a) in
  firstn n (bins ++ repeat Byte.x00 n).

Definition start_error_message (error : Thrown) : string :=
  match error with
  | ErrorObject nm msg =>
      if nm =? "NotAllowedError" then "Microphone permission was denied."
      else if nm =? "NotFoundError" then "No microphone found."
      else if nm =? "NotReadableError" then "Microphone is in use by another app."
      else msg
  | NonError => "Failed to access microphone."
  end.

Section Session.

(** The callbacks an object was constructed with, from the render stored in
    its [callbacks] field. *)
Variable interp : Render -> SentinelCallbacks.

Definition this_callbacks : M SentinelCallbacks :=
  s <- this ;; ret (interp (callbacks s)).

(** [async start()]. *)
Definition start : M unit :=
  try_catch
    (stream <- getUserMedia Audio ;;
     update_this (set_mediaStream (Some stream)) ;;
     ctx <- new_AudioContext ;;
     update_this (set_audioContext (Some ctx)) ;;
     update_this (set_analyser
       (Some {| fftSize := 256; smoothingTimeConstant := 1 # 2 |})) ;;
     update_this (set_processor (Some ctx)) ;;
     perform LiveConnect ;;
     update_this (set_sessionPromise (Some Pending)) ;;
     perform (ProcessorConnect ctx))
    (fun error =>
       cbs <- this_callbacks ;;
       onError cbs (start_error_message error)).

(** The callbacks given to [ai.live.connect]. *)
Definition onopen : M unit :=
  update_this (set_isConnected true) ;;
  cbs <- this_callbacks ;;
  onConnect cbs.

Definition onclose : M unit :=
  update_this (set_isConnected false) ;;
  cbs <- this_callbacks ;;
  onDisconnect cbs.

Definition onerror (err_message : option string) : M unit :=
  cbs <- this_callbacks ;;
  onError cbs (match err_message with
               | Some m => if m =? "" then "Connection error" else m
               | None => "Connection error"
               end).

(** The body of [for (const fc of message.toolCall.functionCalls)]. *)
Fixpoint forEach_functionCall (fcs : list FunctionCall) : M unit :=
  match fcs with
  | [] => ret tt
  | fc :: rest =>
      (if fc_name fc =? "triggerEmergency" then
         let args := fc_args fc in
         cbs <- this_callbacks ;;
         onEmergencyTriggered cbs (reason args) (arg_emotion args) ;;
         then_ (ThenSendToolResponse (fc_id fc) (fc_name fc) "ALERTS_SENT")
       else ret tt) ;;
      forEach_functionCall rest
  end.

(** [private handleMessage(message, sessionPromise)]. *)
Definition handleMessage (message : LiveServerMessage) : M unit :=
  match toolCall message with
  | Some functionCalls => forEach_functionCall functionCalls
  | None => ret tt
  end.

(** [this.processor.onaudioprocess]. *)
Definition onaudioprocess (inputData : Float32Array) (bins : Uint8Array) : M unit :=
  s <- this ;;
  if negb (isConnected s) then ret tt
  else
    let pcmData := floatTo16BitPCM inputData in
    then_ (ThenSendRealtimeInput pcmData) ;;
    cbs <- this_callbacks ;;
    match analyser s, onVolumeChange cbs with
    | Some a, Some forward =>
        let dataArray := getByteFrequencyData a bins in
        forward (average dataArray)
    | _, _ => ret tt
    end.

(** [stop()]. *)
Definition stop : M unit :=
  update_this (set_isConnected false) ;;
  s <- this ;;
  (match mediaStream s with
   | Some m => perform (TrackStop m)
   | None => ret tt
   end) ;;
  (match processor s with
   | Some p => perform (ProcessorDisconnect p)
   | None => ret tt
   end) ;;
  (match audioContext s with
   | Some c => AudioContext_close c
   | None => ret tt
   end).

End Session.

(* ================================================================== *)
(** ** App.tsx: the controller *)
(* ================================================================== *)

Definition string_of_nat_dec (n : Z) : string :=
  NilZero.string_of_uint (N.to_uint (Z.to_N n)).

Fixpoint zeros (n : nat) : string :=
  match n with O => "" | S k => "0" ++ zeros k end.

(** [x.toFixed(5)]: the nearest multiple of 10^-5, the larger one on a tie,
    printed with five decimals. *)
Definition toFixed5 (x : Number) : string :=
  match x with
  | NaN => "NaN"
  | Infinity true => "-Infinity"
  | Infinity false => "Infinity"
  | Finite q =>
      let n := Qfloor (Qabs q * 100000 + (1 # 2)) in
      let frac := string_of_nat_dec (n mod 100000) in
      (if Qlt_bool q 0 then "-" else "") ++
      string_of_nat_dec (n / 100000) ++ "." ++
      zeros (5 - String.length frac) ++ frac
  end.

Definition requestWakeLock : M unit :=
  w <- get ;;
  match wakeLock (answers w) with
  | WakeUnsupported => ret tt
  | WakeRejected => perform (WakeLockRequest None)
  | WakeGranted h =>
      perform (WakeLockRequest (Some h)) ;;
      modify (set_wakeLockRef (Some h))
  end.

Definition releaseWakeLock : M unit :=
  w <- get ;;
  match wakeLockRef w with
  | Some h => perform (WakeLockRelease h) ;; modify (set_wakeLockRef None)
  | None => ret tt
  end.

Definition handleError (title message : string) (action : option string) : M unit :=
  modify (set_errorState
    {| show := true; title := title; message := message; action := action |}) ;;
  modify (set_status IDLE) ;;
  modify (set_isArmed false) ;;
  releaseWakeLock.

(** [captureEvidence] waits for the geolocation callback; the rest of it runs
    when the browser has answered with [g]. *)
Definition locationStr (g : GeoOutcome) : string :=
  match g with
  | GeoPosition latitude longitude =>
      toFixed5 latitude ++ ", " ++ toFixed5 longitude
  | _ => "Unknown Location"
  end.

Definition capturePhoto : M string :=
  w <- get ;;
  match videoRef w, canvasRef w with
  | Some video, Some _ =>
      try_catch
        (if getContext2d (answers w) then
           modify (set_canvasRef
             (Some {| width := videoWidth video; height := videoHeight video |})) ;;
           (match drawImage (answers w) with
            | Some e => throw e
            | None => ret tt
            end) ;;
           (match toDataURL (answers w) with
            | inl url => ret url
            | inr e => throw e
            end)
         else ret "")
        (fun _ => ret "")
  | _, _ => ret ""
  end.

Definition captureEvidence_request : M unit := perform GetCurrentPosition.

Definition captureEvidence_resume (g : GeoOutcome) : M (string * string) :=
  imageUrl <- capturePhoto ;;
  ret (locationStr g, imageUrl).

(** [triggerAlert] up to its [await]: the call returns here, with the rest
    suspended. *)
Definition triggerAlert (env : Render) (reason emotion : string) : M unit :=
  (if negb (r_silentMode env) then
     modify (set_status DANGER) ;;
     modify (set_blackoutMode false)
   else ret tt) ;;
  captureEvidence_request ;;
  modify (fun w => set_suspended
    (suspended w ++ [{| s_env := env; s_reason := reason; s_emotion := emotion |}]) w).

(** [triggerAlert] after its [await]. *)
Definition triggerAlert_resume (a : Suspended) (g : GeoOutcome) : M unit :=
  evidence <- captureEvidence_resume g ;;
  w <- get ;;
  let env := s_env a in
  let newLog :=
    {| timestamp := now (answers w); type := s_reason a; emotion := s_emotion a;
       location := Some (fst evidence); imageUrl := Some (snd evidence);
       isSilent := r_silentMode env |} in
  modify (fun w => set_logs (newLog :: logs w) w) ;;
  perform (ConsoleLog
    ("[" ++ (if r_silentMode env then "SILENT" else "LOUD") ++ " ALERT SENT] To: "
     ++ name (r_contact env) ++ " (" ++ phone (r_contact env) ++ ") | Reason: "
     ++ s_reason a)).

(** The callbacks [toggleArm] builds in the render [env]. *)
Definition app_callbacks (env : Render) : SentinelCallbacks :=
  {| onConnect := modify (set_status ARMED) ;; requestWakeLock;
     onDisconnect := ret tt;
     onError := fun err => handleError "Sentinel System Error" err None;
     onEmergencyTriggered := fun reason emotion => triggerAlert env reason emotion;
     onVolumeChange := Some (fun vol => modify (set_volume vol)) |}.

Definition camera_error_message (e : Thrown) : string :=
  match e with
  | ErrorObject nm _ =>
      if nm =? "NotAllowedError" then
        "You have blocked camera access. Please go to your browser settings and allow camera access for this site to use the safety features."
      else if nm =? "NotFoundError" then "No camera found on this device."
      else if nm =? "NotReadableError" then
        "Your camera is currently in use by another application."
      else "We need camera access to capture evidence during an emergency."
  | NonError => "We need camera access to capture evidence during an emergency."
  end.

(** The camera [try] block of [toggleArm]: [true] when the stream was
    obtained, [false] when the [catch] ran and the handler returns. *)
Definition acquire_camera : M bool :=
  try_catch
    (stream <- getUserMedia Video ;;
     modify (fun w => match videoRef w with
                      | Some v => set_videoRef
                          (Some {| srcObject := Some stream;
                                   videoWidth := videoWidth v;
                                   videoHeight := videoHeight v |}) w
                      | None => w
                      end) ;;
     ret true)
    (fun e =>
       handleError "Camera Permission Failed" (camera_error_message e) None ;;
       ret false).

(** [toggleArm], as created in the render [env]. *)
Definition toggleArm (env : Render) : M unit :=
  if r_isArmed env then
    w <- get ;;
    (match sentinelRef w with
     | Some _ => stop
     | None => ret tt
     end) ;;
    releaseWakeLock ;;
    modify (set_isArmed false) ;;
    modify (set_status IDLE) ;;
    modify (set_volume (Finite 0)) ;;
    modify (set_blackoutMode false)
  else
    if (name (r_contact env) =? "") || (phone (r_contact env) =? "") then
      handleError "Setup Required"
        "Please enter an emergency contact name and phone number." None
    else
      modify (set_status CONNECTING) ;;
      ok <- acquire_camera ;;
      if ok then
        modify (set_sentinelRef (Some (SafetySentinel_new env))) ;;
        start app_callbacks ;;
        modify (set_isArmed true)
      else ret tt.

(* ================================================================== *)
(** ** Events of the page *)
(* ================================================================== *)

Inductive Event : Type :=
| ClickToggleArm                       (* ACTIVATE SENTINEL / DISARM SYSTEM *)
| ClickSilentMode
| ClickScreenOff
| ClickWake
| ClickDismissError
| InputContact (c : EmergencyContact)
| LiveOpen
| LiveClosed
| LiveError (err_message : option string)
| LiveMessage (m : LiveServerMessage)
| ConnectSettled (fulfilled : bool)
| AudioProcess (inputData : Float32Array) (bins : Uint8Array)
| PositionSettled (i : nat) (g : GeoOutcome)
| BrowserAnswers (a : Answers).

(** The handler of an event, bound in the current render.  The setup form
    (contact, silent mode) is rendered only while [isArmed] is false, the
    SCREEN OFF button only while it is true. *)
Definition handler (e : Event) : M unit :=
  w <- get ;;
  match e with
  | ClickToggleArm => toggleArm (render w)
  | ClickSilentMode =>
      if isArmed w then ret tt else modify (set_silentMode (negb (silentMode w)))
  | ClickScreenOff =>
      if isArmed w then modify (set_blackoutMode true) else ret tt
  | ClickWake =>
      if blackoutMode w then modify (set_blackoutMode false) else ret tt
  | ClickDismissError =>
      if show (errorState w) then
        modify (set_errorState
          {| show := false; title := ""; message := ""; action := None |})
      else ret tt
  | InputContact c => if isArmed w then ret tt else modify (set_contact c)
  | LiveOpen => onopen app_callbacks
  | LiveClosed => onclose app_callbacks
  | LiveError m => onerror app_callbacks m
  | LiveMessage m => handleMessage app_callbacks m
  | ConnectSettled ok =>
      update_this (fun s =>
        match sessionPromise s with
        | Some Pending =>
            set_sessionPromise (Some (if ok then Fulfilled else Rejected)) s
        | _ => s
        end)
  | AudioProcess inputData bins => onaudioprocess app_callbacks inputData bins
  | PositionSettled i g =>
      match nth_error (suspended w) i with
      | Some a =>
          modify (set_suspended (firstn i (suspended w) ++ skipn (S i) (suspended w))) ;;
          triggerAlert_resume a g
      | None => ret tt
      end
  | BrowserAnswers a => modify (set_answers a)
  end.

(** One event: its handler runs to its end (an exception it lets escape is
    reported by the browser and changes nothing more), then the microtasks. *)
Definition after {A} (c : M A) (w : World) : World :=
  world_of (microtasks (world_of (c w))).

Definition step (w : World) (e : Event) : World := after (handler e) w.

Definition run (w : World) (es : list Event) : World := fold_left step es w.

(** *** Resources, read off the requests made *)

Definition granted_streams (k : MediaKind) (es : list Effect) : list MediaStream :=
  flat_map (fun e => match e with
                     | GetUserMedia k' (Some s) =>
                         match k, k' with
                         | Video, Video | Audio, Audio => [s]
                         | _, _ => []
                         end
                     | _ => []
                     end) es.

Definition stopped (s : MediaStream) (es : list Effect) : bool :=
  existsb (fun e => match e with TrackStop s' => Nat.eqb s s' | _ => false end) es.

(** The streams of kind [k] that were obtained and whose tracks were never
    stopped. *)
Definition held_streams (k : MediaKind) (es : list Effect) : list MediaStream :=
  filter (fun s => negb (stopped s es)) (granted_streams k es).

Definition held_wakeLocks (es : list Effect) : list WakeLockSentinel :=
  filter (fun h => negb (existsb (fun e => match e with
                                           | WakeLockRelease h' => Nat.eqb h h'
                                           | _ => false
                                           end) es))
         (flat_map (fun e => match e with
                             | WakeLockRequest (Some h) => [h]
                             | _ => []
                             end) es).

Definition is_LiveConnect (e : Effect) : bool :=
  match e with LiveConnect => true | _ => false end.
Definition is_LiveClose (e : Effect) : bool :=
  match e with LiveClose => true | _ => false end.

(** A connection was opened and no request to close it was made. *)
Definition transport_open (es : list Effect) : bool :=
  existsb is_LiveConnect es && negb (existsb is_LiveClose es).

Definition acks (es : list Effect) : list (string * string * string) :=
  flat_map (fun e => match e with
                     | SendToolResponse id nm r => [(id, nm, r)]
                     | _ => []
                     end) es.

Definition pending_acks (rs : list Reaction) : list (string * string * string) :=
  flat_map (fun r => match r with
                     | ThenSendToolResponse id nm r => [(id, nm, r)]
                     | _ => []
                     end) rs.

Definition microphone_requested (es : list Effect) : bool :=
  existsb (fun e => match e with GetUserMedia Audio _ => true | _ => false end) es.

(* ================================================================== *)
(** ** Concrete pages used by the examples *)
(* ================================================================== *)

Definition answers0 : Answers :=
  {| camera := inl 1%nat; microphone := inl 2%nat; newAudioContext := inl 3%nat;
     wakeLock := WakeGranted 4%nat; getContext2d := true; drawImage := None;
     toDataURL := inl "data:image/jpeg;base64,AAAA"; now := 1000 |}.

(** The page as [App] first renders it. *)
Definition world0 : World :=
  {| isArmed := false; status := IDLE; contact := {| name := ""; phone := "" |};
     logs := []; volume := Finite 0; silentMode := false; blackoutMode := false;
     errorState := {| show := false; title := ""; message := ""; action := None |};
     sentinelRef := None;
     videoRef := Some {| srcObject := None; videoWidth := 640; videoHeight := 480 |};
     canvasRef := Some {| width := 300; height := 150 |};
     wakeLockRef := None; answers := answers0; effects := []; suspended := [] |}.

Definition mom : EmergencyContact := {| name := "Mom"; phone := "+15550123" |}.

(** Contact entered, nothing else done. *)
Definition world_ready : World :=
  Eval vm_compute in step world0 (InputContact mom).

(** ACTIVATE clicked, camera and microphone granted, connection not open yet. *)
Definition world_connecting : World :=
  Eval vm_compute in step world_ready ClickToggleArm.

(** Connection open: ARMED. *)
Definition world_armed : World :=
  Eval vm_compute in run world_connecting [ConnectSettled true; LiveOpen].

(** Armed, then DISARM clicked. *)
Definition world_disarmed : World :=
  Eval vm_compute in step world_armed ClickToggleArm.


Definition sentinel_of (w : World) : SafetySentinel :=
  match sentinelRef w with
  | Some s => s
  | None => SafetySentinel_new (render w)
  end.

Definition sentinel_connecting : SafetySentinel :=
  Eval vm_compute in sentinel_of world_connecting.

Definition sentinel_armed : SafetySentinel :=
  Eval vm_compute in sentinel_of world_armed.

Definition scream (conf : option Q) : FunctionCall :=
  {| fc_id := "call-1"; fc_name := "triggerEmergency";
     fc_args := {| reason := "chaotic scream"; arg_emotion := "MORTAL_FEAR";
                   confidence := conf |} |}.

Definition scream_message (conf : option Q) : LiveServerMessage :=
  {| toolCall := Some [scream conf] |}.

Definition loud_bins : Uint8Array := repeat Byte.xff 128.

Definition with_answers (a : Answers) (w : World) : World := set_answers a w.

Definition mic_denied : Answers :=
  {| camera := inl 1%nat;
     microphone := inr (ErrorObject "NotAllowedError" "Permission denied");
     newAudioContext := inl 3%nat;
     wakeLock := WakeGranted 4%nat; getContext2d := true; drawImage := None;
     toDataURL := inl "data:image/jpeg;base64,AAAA"; now := 1000 |}.

Definition camera_denied : Answers :=
  {| camera := inr (ErrorObject "NotAllowedError" "Permission denied");
     microphone := inl 2%nat;
     newAudioContext := inl 3%nat;
     wakeLock := WakeGranted 4%nat; getContext2d := true; drawImage := None;
     toDataURL := inl "data:image/jpeg;base64,AAAA"; now := 1000 |}.

(** Callbacks whose trigger callback throws. *)
Definition throwing_callbacks (_ : Render) : SentinelCallbacks :=
  {| onConnect := ret tt;
     onDisconnect := ret tt;
     onEmergencyTriggered := fun _ _ => throw (ErrorObject "Error" "controller failed");
     onError := fun _ => ret tt;
     onVolumeChange := None |}.

(* ================================================================== *)
(** ** Descriptions the statements below are phrased with *)
(* ================================================================== *)

(** [fc.name === 'triggerEmergency']. *)
Definition is_trigger (fc : FunctionCall) : bool := fc_name fc =? "triggerEmergency".

(** The invocations of a message that name the distress tool. *)
Definition triggers (fcs : list FunctionCall) : list FunctionCall := filter is_trigger fcs.

Definition ack_of (fc : FunctionCall) : string * string * string :=
  (fc_id fc, fc_name fc, "ALERTS_SENT").

Definition reaction_of (fc : FunctionCall) : Reaction :=
  ThenSendToolResponse (fc_id fc) (fc_name fc) "ALERTS_SENT".

Definition alert_of (env : Render) (fc : FunctionCall) : Suspended :=
  {| s_env := env; s_reason := reason (fc_args fc);
     s_emotion := arg_emotion (fc_args fc) |}.

(** The page after the synchronous part of [triggerAlert] has run once for
    every trigger of [fcs] and the acknowledgments have been registered. *)
Definition after_triggers (fcs : list FunctionCall) (s : SafetySentinel) (w : World) : World :=
  let env := callbacks s in
  let ts := triggers fcs in
  let w1 := match ts with
            | [] => w
            | _ :: _ => if r_silentMode env then w
                        else set_blackoutMode false (set_status DANGER w)
            end in
  set_sentinelRef (Some (set_reactions (reactions s ++ map reaction_of ts) s))
    (set_suspended (suspended w ++ map (alert_of env) ts)
      (set_effects (effects w ++ map (fun _ => GetCurrentPosition) ts) w1)).

(** The image [captureEvidence] ends with. *)
Definition photo_url (w : World) : string :=
  match videoRef w, canvasRef w with
  | Some _, Some _ =>
      if getContext2d (answers w) then
        match drawImage (answers w), toDataURL (answers w) with
        | None, inl url => url
        | _, _ => ""
        end
      else ""
  | _, _ => ""
  end.

(** The entry [triggerAlert] logs for the suspended call [a] when the
    browser answers [g] on the page [w]. *)
Definition entry_of (a : Suspended) (g : GeoOutcome) (w : World) : AlertLog :=
  {| timestamp := now (answers w); type := s_reason a; emotion := s_emotion a;
     location := Some (locationStr g); imageUrl := Some (photo_url w);
     isSilent := r_silentMode (s_env a) |}.

(** The requests [stop] issues for the handles the object holds. *)
Definition teardown_requests (s : SafetySentinel) : list Effect :=
  (match mediaStream s with Some m => [TrackStop m] | None => [] end) ++
  (match processor s with Some p => [ProcessorDisconnect p] | None => [] end) ++
  (match audioContext s with Some c => [ContextClose c] | None => [] end).

Definition is_rejection (e : Effect) : bool :=
  match e with UnhandledRejection _ => true | _ => false end.

Definition requests (es : list Effect) : list Effect :=
  filter (fun e => negb (is_rejection e)) es.

(** The volume shown after an audio frame is the average of the bins the
    analyser holds, whatever the state of the connection. *)
Definition volume_forwarded (w : World) (inputData : Float32Array) (bins : Uint8Array) : Prop :=
  forall s a, sentinelRef w = Some s -> analyser s = Some a ->
    volume (step w (AudioProcess inputData bins)) = average (getByteFrequencyData a bins).






(** What one call of [stop] adds to the requests [es] made before it: the
    teardown of the handles held and, when the context was closed before,
    the rejection of the second close. *)
Definition stop_effects (s : SafetySentinel) (es : list Effect) : list Effect :=
  (match mediaStream s with Some m => [TrackStop m] | None => [] end) ++
  (match processor s with Some p => [ProcessorDisconnect p] | None => [] end) ++
  (match audioContext s with
   | Some c =>
       if existsb (is_close_of c) es
       then [ContextClose c; UnhandledRejection "InvalidStateError"]
       else [ContextClose c]
   | None => []
   end).

(** When a message with the one trigger [fc] has been handled, its
    acknowledgment has joined those sent, whatever the trigger callback
    does. *)
Definition acknowledged (interp : Render -> SentinelCallbacks) (w : World)
    (fc : FunctionCall) : Prop :=
  acks (effects (after (handleMessage interp {| toolCall := Some [fc] |}) w)) =
  acks (effects w) ++ [ack_of fc].

(** The page after [releaseWakeLock]. *)
Definition released_world (w : World) : World :=
  match wakeLockRef w with
  | Some h => set_wakeLockRef None (set_effects (effects w ++ [WakeLockRelease h]) w)
  | None => w
  end.

(** The page after [sentinelRef.current?.stop()]. *)
Definition stopped_world (w : World) : World :=
  match sentinelRef w with
  | Some s =>
      set_effects (effects w ++ stop_effects s (effects w))
        (set_sentinelRef (Some (set_isConnected false s)) w)
  | None => w
  end.

(** The second of two calls of [stop] in succession throws nothing and none
    of its teardown requests fails. *)
Definition second_stop_quiet (w : World) : Prop :=
  let w1 := world_of (stop w) in
  let c2 := stop w1 in
  threw c2 = false /\
  filter is_rejection (skipn (length (effects w1)) (effects (world_of c2))) = [].

(** No stream and no wake lock is held, and no connection is open. *)
Definition nothing_held (w : World) : Prop :=
  held_streams Audio (effects w) = [] /\
  held_streams Video (effects w) = [] /\
  held_wakeLocks (effects w) = [] /\
  transport_open (effects w) = false.

(* ================================================================== *)
(** ** Tactics *)
(* ================================================================== *)

(** The monad operations and the event loop are unfolded in one pass. *)
Ltac js_unfold :=
  cbv beta iota delta
    [bind get ret modify perform throw try_catch this update_this then_
     this_callbacks world_of threw after step run handler].
Ltac js := js_unfold; simpl.

(** Nested field updates are brought to one record, innermost first. *)
Ltac world_norm :=
  cbv beta iota delta
    [set_isArmed set_status set_contact set_logs set_volume
     set_silentMode set_blackoutMode set_errorState set_sentinelRef
     set_videoRef set_canvasRef set_wakeLockRef set_answers set_effects
     set_suspended set_isConnected set_mediaStream set_audioContext
     set_processor set_analyser set_sessionPromise set_reactions
     isArmed status contact logs volume silentMode blackoutMode errorState
     sentinelRef videoRef canvasRef wakeLockRef answers effects suspended
     audioContext mediaStream processor analyser callbacks isConnected
     sessionPromise reactions option_map].

(** Projections of updated records, without touching anything else. *)
Ltac world_cbn :=
  cbn [set_isArmed set_status set_contact set_logs set_volume
       set_silentMode set_blackoutMode set_errorState set_sentinelRef
       set_videoRef set_canvasRef set_wakeLockRef set_answers set_effects
       set_suspended set_isConnected set_mediaStream set_audioContext
       set_processor set_analyser set_sessionPromise set_reactions
       isArmed status contact logs volume silentMode blackoutMode errorState
       sentinelRef videoRef canvasRef wakeLockRef answers effects suspended
       audioContext mediaStream processor analyser callbacks isConnected
       sessionPromise reactions option_map world_of].

(* ================================================================== *)
(** ** Facts about the numeric layer *)
(* ================================================================== *)

Section NumFacts.

Lemma Qlt_bool_iff (a b : Q) : Qlt_bool a b = true <-> a < b.
Proof.
  unfold Qlt_bool. rewrite negb_true_iff.
  destruct (Qle_bool b a) eqn:E.
  - apply Qle_bool_iff in E. split; [discriminate|].
    intro H. exfalso. exact (Qlt_not_le _ _ H E).
  - split; [intros _|reflexivity].
    apply Qnot_le_lt. intro H. apply Qle_bool_iff in H. congruence.
Qed.

Lemma Qlt_bool_false (a b : Q) : Qlt_bool a b = false <-> b <= a.
Proof.
  unfold Qlt_bool. rewrite negb_false_iff. apply Qle_bool_iff.
Qed.

(** Truncation stays within one unit of its argument. *)
Lemma truncate_close (q : Q) : Qabs (inject_Z (truncate q) - q) < 1.
Proof.
  destruct q as [n d]. unfold truncate. cbn [Qnum Qden].
  pose proof (Z.quot_rem' n (Z.pos d)) as E.
  assert (Hd : (0 < Z.pos d)%Z) by lia.
  assert (Hr : (Z.abs (Z.rem n (Z.pos d)) < Z.pos d)%Z).
  { pose proof (Z.rem_bound_abs n (Z.pos d) ltac:(lia)). lia. }
  set (k := Z.quot n (Z.pos d)) in *. set (r := Z.rem n (Z.pos d)) in *.
  apply Qabs_Qlt_condition. unfold Qlt, Qminus, Qplus, Qopp, inject_Z.
  cbn [Qnum Qden]. split; nia.
Qed.

Lemma truncate_range (q : Q) (lo hi : Z) :
  (lo <= 0 <= hi)%Z -> inject_Z lo <= q -> q <= inject_Z hi ->
  (lo <= truncate q <= hi)%Z.
Proof.
  destruct q as [n d]. unfold truncate, Qle, inject_Z. cbn [Qnum Qden].
  intros H0 Hlo Hhi.
  pose proof (Z.quot_rem' n (Z.pos d)) as E.
  assert (Hd : (0 < Z.pos d)%Z) by lia.
  destruct (Z.le_gt_cases 0 n) as [Hn|Hn].
  - pose proof (Z.rem_bound_pos n (Z.pos d) Hn Hd).
    pose proof (Z.quot_pos n (Z.pos d) Hn Hd). nia.
  - assert (Hn' : (n <= 0)%Z) by lia.
    pose proof (Z.rem_nonpos n (Z.pos d) ltac:(lia) Hn').
    pose proof (Z.rem_bound_abs n (Z.pos d) ltac:(lia)).
    assert (Z.quot n (Z.pos d) <= 0)%Z.
    { pose proof (Z.quot_opp_l n (Z.pos d) ltac:(lia)).
      pose proof (Z.quot_pos (- n) (Z.pos d)). lia. }
    nia.
Qed.

Lemma ToInt16_in_range (q : Q) :
  (-32768 <= truncate q <= 32767)%Z -> ToInt16 (Finite q) = truncate q.
Proof.
  intros H. unfold ToInt16. set (t := truncate q) in *.
  destruct (Z.le_gt_cases 0 t) as [Hp|Hn].
  - rewrite Z.mod_small by lia.
    destruct (Z.leb_spec 32768 t); lia.
  - replace (t mod 65536)%Z with (t + 65536)%Z.
    + destruct (Z.leb_spec 32768 (t + 65536)); lia.
    + apply Z.mod_unique with (q := (-1)%Z); lia.
Qed.

End NumFacts.

(* ================================================================== *)
(** ** Facts about the encoder and the volume average *)
(* ================================================================== *)

Section PcmFacts.

Lemma scale_wd (a b : Q) : a == b -> scale a == scale b.
Proof.
  intros E. unfold scale.
  destruct (Qlt_bool a 0) eqn:Ha, (Qlt_bool b 0) eqn:Hb.
  - now rewrite E.
  - apply Qlt_bool_iff in Ha. apply Qlt_bool_false in Hb.
    rewrite E in Ha. exfalso. exact (Qlt_not_le _ _ Ha Hb).
  - apply Qlt_bool_iff in Hb. apply Qlt_bool_false in Ha.
    rewrite E in Ha. exfalso. exact (Qlt_not_le _ _ Hb Ha).
  - now rewrite E.
Qed.

Lemma scale_bounds (s : Q) :
  -1 <= s -> s <= 1 -> inject_Z (-32768) <= scale s /\ scale s <= inject_Z 32767.
Proof.
  intros Hlo Hhi. unfold scale.
  destruct (Qlt_bool s 0) eqn:E.
  - apply Qlt_bool_iff in E. revert Hlo Hhi E.
    destruct s as [n d]. unfold Qle, Qlt, Qmult, inject_Z. cbn [Qnum Qden].
    intros. split; lia.
  - apply Qlt_bool_false in E. revert Hlo Hhi E.
    destruct s as [n d]. unfold Qle, Qlt, Qmult, inject_Z. cbn [Qnum Qden].
    intros. split; lia.
Qed.

Lemma code_clamp_spec (q : Q) :
  code_clamp q == Qmax (-1) (Qmin 1 q) /\ -1 <= code_clamp q /\ code_clamp q <= 1.
Proof.
  unfold code_clamp.
  destruct (Qlt_bool q 1) eqn:E1.
  - apply Qlt_bool_iff in E1.
    assert (Hm : Qmin 1 q == q) by (apply Q.min_r, Qlt_le_weak, E1).
    destruct (Qlt_bool (-1) q) eqn:E2.
    + apply Qlt_bool_iff in E2. repeat split.
      * rewrite Hm. symmetry. apply Q.max_r, Qlt_le_weak, E2.
      * apply Qlt_le_weak, E2.
      * apply Qlt_le_weak, E1.
    + apply Qlt_bool_false in E2. repeat split.
      * rewrite Hm. symmetry. apply Q.max_l, E2.
      * apply Qle_refl.
      * discriminate.
  - apply Qlt_bool_false in E1.
    assert (Hm : Qmin 1 q == 1) by (apply Q.min_l, E1).
    assert (E2 : Qlt_bool (-1) 1 = true) by reflexivity.
    rewrite E2. repeat split.
    + rewrite Hm. symmetry. apply Q.max_r. discriminate.
    + discriminate.
    + apply Qle_refl.
Qed.

Lemma encode_sample_finite (q : Q) :
  encode_sample (Finite q) = ToInt16 (Finite (scale (code_clamp q))).
Proof.
  unfold encode_sample, code_clamp, scale, Math_min, Math_max, lt, mul.
  destruct (Qlt_bool q 1); destruct (Qlt_bool (-1) _);
    destruct (Qlt_bool _ 0); reflexivity.
Qed.

Lemma encode_sample_ok (x : Number) : pcm_sample_ok x (encode_sample x).
Proof.
  destruct x as [|[|]|q]; unfold pcm_sample_ok; cbn [clamp].
  - reflexivity.
  - vm_compute. split; [reflexivity | split; discriminate].
  - vm_compute. split; [reflexivity | split; discriminate].
  - rewrite encode_sample_finite.
    destruct (code_clamp_spec q) as (Heq & Hlo & Hhi).
    destruct (scale_bounds Hlo Hhi) as [Blo Bhi].
    pose proof (@truncate_range (scale (code_clamp q)) (-32768) 32767
                  ltac:(lia) Blo Bhi) as R.
    rewrite (ToInt16_in_range _ R). split; [|exact R].
    rewrite <- (scale_wd Heq). apply truncate_close.
Qed.

Lemma byte_val_bounds (b : Byte.byte) : (0 <= byte_val b <= 255)%Z.
Proof.
  unfold byte_val. pose proof (Byte.to_N_bounded b). lia.
Qed.

Lemma fold_sum_bounds (l : Uint8Array) (acc : Z) :
  (acc <= fold_left (fun sum b => sum + byte_val b) l acc
       <= acc + 255 * Z.of_nat (length l))%Z.
Proof.
  revert acc. induction l as [|b l IH]; intros acc; cbn [fold_left length].
  - lia.
  - pose proof (byte_val_bounds b). specialize (IH (acc + byte_val b)%Z). lia.
Qed.

Lemma average_bounds (l : Uint8Array) :
  l <> [] -> exists q, average l = Finite q /\ 0 <= q /\ q <= 255.
Proof.
  intros Hne. unfold average, div_int.
  assert (Hlen : (0 < Z.of_nat (length l))%Z) by (destruct l; [congruence | cbn; lia]).
  destruct (Z.eqb_spec (Z.of_nat (length l)) 0); [lia|].
  eexists. split; [reflexivity|].
  pose proof (fold_sum_bounds l 0) as B. fold (sum_bins l) in B.
  unfold Qle. cbn [Qnum Qden]. rewrite Z2Pos.id by lia. split; lia.
Qed.

Lemma getByteFrequencyData_length (a : AnalyserNode) (bins : Uint8Array) :
  length (getByteFrequencyData a bins) = Z.to_nat (frequencyBinCount a).
Proof.
  unfold getByteFrequencyData. rewrite length_firstn, length_app, repeat_length. lia.
Qed.

End PcmFacts.

(* ================================================================== *)
(** ** What the handlers evaluate to *)
(* ================================================================== *)

Section Evaluation.

Lemma triggerAlert_eval (env : Render) (r e : string) (w : World) :
  triggerAlert env r e w =
  Normal tt
    (set_suspended
       (suspended w ++ [{| s_env := env; s_reason := r; s_emotion := e |}])
       (set_effects (effects w ++ [GetCurrentPosition])
          (if r_silentMode env then w
           else set_blackoutMode false (set_status DANGER w)))).
Proof.
  unfold triggerAlert, captureEvidence_request. js_unfold.
  destruct (r_silentMode env); reflexivity.
Qed.

Lemma forEach_functionCall_app (fcs : list FunctionCall) :
  forall (w : World) (s : SafetySentinel),
    sentinelRef w = Some s ->
    forEach_functionCall app_callbacks fcs w = Normal tt (after_triggers fcs s w).
Proof.
  induction fcs as [|fc rest IH]; intros w s Hs.
  - destruct w, s. simpl in Hs. subst. unfold after_triggers. simpl.
    rewrite !app_nil_r. reflexivity.
  - cbn [forEach_functionCall]. unfold bind at 1.
    unfold after_triggers, triggers. cbn [filter].
    destruct (is_trigger fc) eqn:E; unfold is_trigger in E; rewrite E.
    + unfold this_callbacks, bind, this, ret. rewrite Hs.
      cbn [app_callbacks onEmergencyTriggered]. rewrite triggerAlert_eval.
      unfold then_, update_this, modify.
      destruct w, s. cbn [sentinelRef] in Hs. subst. world_norm.
      destruct (r_silentMode callbacks0) eqn:Es.
      all: erewrite IH by reflexivity.
      all: unfold after_triggers, triggers; world_norm.
      all: rewrite ?Es.
      all: destruct (filter is_trigger rest); cbn [map app];
        rewrite <- ?app_assoc, ?app_nil_r; reflexivity.
    + unfold ret at 1. erewrite IH by exact Hs. reflexivity.
Qed.

Lemma handleMessage_app (fcs : list FunctionCall) (w : World) (s : SafetySentinel) :
  sentinelRef w = Some s ->
  handleMessage app_callbacks {| toolCall := Some fcs |} w =
  Normal tt (after_triggers fcs s w).
Proof. intros Hs. unfold handleMessage. cbn [toolCall]. now apply forEach_functionCall_app. Qed.

(** One trigger, any callbacks: the acknowledgment is registered after the
    trigger callback has returned, and only then. *)
Lemma handleMessage_single (interp : Render -> SentinelCallbacks)
    (w : World) (s : SafetySentinel) (fc : FunctionCall) :
  sentinelRef w = Some s ->
  is_trigger fc = true ->
  handleMessage interp {| toolCall := Some [fc] |} w =
  match onEmergencyTriggered (interp (callbacks s))
          (reason (fc_args fc)) (arg_emotion (fc_args fc)) w with
  | Normal _ w' => then_ (reaction_of fc) w'
  | Abrupt e w' => Abrupt e w'
  end.
Proof.
  intros Hs Ht. unfold handleMessage. cbn [toolCall forEach_functionCall].
  unfold is_trigger in Ht. rewrite Ht. js_unfold. rewrite Hs.
  destruct (onEmergencyTriggered _ _ _ w); reflexivity.
Qed.

Lemma microtasks_eval (w : World) (s : SafetySentinel) :
  sentinelRef w = Some s ->
  microtasks w =
  Normal tt
    match sessionPromise s with
    | Some Fulfilled =>
        set_sentinelRef (Some (set_reactions [] s))
          (set_effects (effects w ++ map run_reaction (reactions s)) w)
    | Some Rejected => set_sentinelRef (Some (set_reactions [] s)) w
    | _ => w
    end.
Proof.
  intros Hs. unfold microtasks. js_unfold. rewrite Hs.
  destruct (sessionPromise s) as [[| |]|]; simpl; rewrite ?Hs; reflexivity.
Qed.

(** The microtasks touch the reaction queue and the requests, nothing else. *)
Lemma microtasks_frame (w : World) :
  exists es f,
    world_of (microtasks w) =
      set_sentinelRef (option_map f (sentinelRef w)) (set_effects (effects w ++ es) w) /\
    (forall s, callbacks (f s) = callbacks s /\ isConnected (f s) = isConnected s /\
               mediaStream (f s) = mediaStream s /\ audioContext (f s) = audioContext s /\
               processor (f s) = processor s /\ analyser (f s) = analyser s /\
               sessionPromise (f s) = sessionPromise s).
Proof.
  destruct (sentinelRef w) as [s|] eqn:Hs.
  - rewrite (microtasks_eval _ Hs). cbn [world_of].
    destruct (sessionPromise s) as [[| |]|].
    + exists [], (fun s => s). split; [|intros; repeat split].
      destruct w; simpl in *; subst; world_norm; rewrite app_nil_r; reflexivity.
    + exists (map run_reaction (reactions s)), (set_reactions []).
      split; [reflexivity | intros; repeat split].
    + exists [], (set_reactions []). split; [|intros; repeat split].
      destruct w; simpl in *; subst; world_norm; rewrite app_nil_r; reflexivity.
    + exists [], (fun s => s). split; [|intros; repeat split].
      destruct w; simpl in *; subst; world_norm; rewrite app_nil_r; reflexivity.
  - exists [], (fun s => s). split; [|intros; repeat split].
    unfold microtasks. js_unfold. rewrite Hs.
    destruct w; simpl in *; subst; world_norm; rewrite app_nil_r; reflexivity.
Qed.

Lemma capturePhoto_eval (w : World) :
  exists c, capturePhoto w = Normal (photo_url w) (set_canvasRef c w).
Proof.
  unfold capturePhoto, photo_url. js_unfold.
  destruct (videoRef w) as [v|] eqn:Hv.
  2:{ exists (canvasRef w). destruct w; reflexivity. }
  destruct (canvasRef w) as [c|] eqn:Hc.
  2:{ exists None. destruct w; simpl in *; subst; reflexivity. }
  destruct (getContext2d (answers w)).
  2:{ exists (Some c). destruct w; simpl in *; subst; reflexivity. }
  exists (Some {| width := videoWidth v; height := videoHeight v |}).
  simpl. destruct (drawImage (answers w)); [reflexivity|].
  destruct (toDataURL (answers w)); reflexivity.
Qed.

Lemma triggerAlert_resume_eval (a : Suspended) (g : GeoOutcome) (w : World) :
  exists c line,
    triggerAlert_resume a g w =
    Normal tt
      (set_effects (effects w ++ [ConsoleLog line])
         (set_logs (entry_of a g w :: logs w) (set_canvasRef c w))).
Proof.
  destruct (capturePhoto_eval w) as [c Hc].
  exists c. eexists.
  unfold triggerAlert_resume, captureEvidence_resume. js_unfold.
  rewrite Hc. reflexivity.
Qed.

Lemma stop_eval (w : World) (s : SafetySentinel) :
  sentinelRef w = Some s ->
  stop w =
  Normal tt
    (set_effects (effects w ++ stop_effects s (effects w))
       (set_sentinelRef (Some (set_isConnected false s)) w)).
Proof.
  intros Hs. unfold stop, AudioContext_close, stop_effects. js_unfold. rewrite Hs.
  destruct w, s. cbn [sentinelRef] in Hs. subst. world_norm.
  destruct mediaStream0, processor0, audioContext0; world_norm; cbn [app];
    rewrite ?existsb_app; cbn [existsb is_close_of]; rewrite ?orb_false_r;
    repeat match goal with |- context [existsb ?f ?l] => destruct (existsb f l) end;
    world_norm; rewrite <- ?app_assoc, ?app_nil_r; reflexivity.
Qed.

Lemma requests_stop_effects (s : SafetySentinel) (es : list Effect) :
  requests (stop_effects s es) = teardown_requests s.
Proof.
  unfold requests, stop_effects, teardown_requests.
  destruct (mediaStream s), (processor s), (audioContext s); simpl;
    repeat match goal with |- context [existsb ?f ?l] => destruct (existsb f l) end;
    reflexivity.
Qed.

Lemma releaseWakeLock_eval (w : World) :
  releaseWakeLock w = Normal tt (released_world w).
Proof.
  unfold releaseWakeLock, released_world. js_unfold.
  destruct (wakeLockRef w); reflexivity.
Qed.

Lemma released_world_frame (w : World) :
  exists es,
    released_world w = set_wakeLockRef None (set_effects (effects w ++ es) w) /\
    es = match wakeLockRef w with Some h => [WakeLockRelease h] | None => [] end.
Proof.
  unfold released_world. destruct (wakeLockRef w) as [h|] eqn:E.
  - eexists. split; reflexivity.
  - exists []. split; [|reflexivity].
    destruct w; cbn [wakeLockRef] in E; subst; world_norm; rewrite app_nil_r; reflexivity.
Qed.

Lemma handleError_eval (t m : string) (a : option string) (w : World) :
  handleError t m a w =
  Normal tt
    (released_world
       (set_isArmed false
          (set_status IDLE
             (set_errorState {| show := true; title := t; message := m; action := a |} w)))).
Proof.
  unfold handleError. js_unfold. rewrite releaseWakeLock_eval. reflexivity.
Qed.

Lemma disarm_eval (env : Render) (w : World) :
  r_isArmed env = true ->
  toggleArm env w =
  Normal tt
    (set_blackoutMode false
       (set_volume (Finite 0)
          (set_status IDLE (set_isArmed false (released_world (stopped_world w)))))).
Proof.
  intros Ha. unfold toggleArm. rewrite Ha. js_unfold. unfold stopped_world.
  destruct (sentinelRef w) as [s|] eqn:Hs.
  - rewrite (stop_eval _ Hs). rewrite releaseWakeLock_eval. reflexivity.
  - rewrite releaseWakeLock_eval. reflexivity.
Qed.

Lemma arm_camera_failure_eval (w : World) (e : Thrown) :
  isArmed w = false ->
  name (contact w) <> "" -> phone (contact w) <> "" ->
  camera (answers w) = inr e ->
  toggleArm (render w) w =
  Normal tt
    (released_world
       (set_isArmed false
          (set_status IDLE
             (set_errorState
                {| show := true; title := "Camera Permission Failed";
                   message := camera_error_message e; action := None |}
                (set_effects (effects w ++ [GetUserMedia Video None])
                   (set_status CONNECTING w)))))).
Proof.
  intros Ha Hn Hp Hc. apply String.eqb_neq in Hn, Hp.
  unfold toggleArm. cbn [render r_isArmed r_contact]. rewrite Ha, Hn, Hp. cbn [orb].
  unfold acquire_camera, getUserMedia. js_unfold. world_cbn. rewrite Hc.
  rewrite handleError_eval. reflexivity.
Qed.

Lemma arm_microphone_failure_eval (w : World) (stream : MediaStream) (e : Thrown) :
  isArmed w = false ->
  name (contact w) <> "" -> phone (contact w) <> "" ->
  camera (answers w) = inl stream ->
  microphone (answers w) = inr e ->
  exists w1,
    toggleArm (render w) w = Normal tt (set_isArmed true (released_world w1)) /\
    status w1 = IDLE /\
    errorState w1 =
      {| show := true; title := "Sentinel System Error";
         message := start_error_message e; action := None |}.
Proof.
  intros Ha Hn Hp Hc Hm. apply String.eqb_neq in Hn, Hp.
  unfold toggleArm. cbn [render r_isArmed r_contact]. rewrite Ha, Hn, Hp. cbn [orb].
  unfold acquire_camera, start, getUserMedia. js_unfold. world_cbn. rewrite Hc.
  world_cbn. 
  match goal with |- context [microphone (answers ?x)] =>
    replace (microphone (answers x)) with (microphone (answers w))
      by (destruct (videoRef w); reflexivity) end.
  rewrite Hm. world_cbn.
  cbn [app_callbacks onError callbacks SafetySentinel_new].
  rewrite handleError_eval. eexists. split; [reflexivity|]. split; reflexivity.
Qed.

End Evaluation.

(* ================================================================== *)
(** ** Events on a page with a session *)
(* ================================================================== *)

Ltac flush_frame X :=
  let es := fresh "es" in let f := fresh "f" in
  let E := fresh "E" in let Hf := fresh "Hf" in
  destruct (microtasks_frame X) as (es & f & E & Hf); rewrite E; clear E.

Section AlertFacts.

(** What one event does to the page when it is a message of triggers. *)
Lemma step_LiveMessage (fcs : list FunctionCall) (w : World) (s : SafetySentinel) :
  sentinelRef w = Some s ->
  step w (LiveMessage {| toolCall := Some fcs |}) =
  world_of (microtasks (after_triggers fcs s w)).
Proof.
  intros Hs. js_unfold. rewrite (handleMessage_app _ _ Hs). reflexivity.
Qed.

Lemma step_PositionSettled (i : nat) (g : GeoOutcome) (a : Suspended) (w : World) :
  nth_error (suspended w) i = Some a ->
  exists c line,
    step w (PositionSettled i g) =
    world_of (microtasks
      (set_effects (effects w ++ [ConsoleLog line])
         (set_logs (entry_of a g w :: logs w)
            (set_canvasRef c
               (set_suspended (firstn i (suspended w) ++ skipn (S i) (suspended w)) w))))).
Proof.
  intros Hn. js_unfold. rewrite Hn.
  destruct (triggerAlert_resume_eval a g
              (set_suspended (firstn i (suspended w) ++ skipn (S i) (suspended w)) w))
    as (c & line & E).
  exists c, line. rewrite E. reflexivity.
Qed.

Lemma message_then_position (w : World) (s : SafetySentinel) (fc : FunctionCall) (g : GeoOutcome) :
  sentinelRef w = Some s ->
  is_trigger fc = true ->
  let env := callbacks s in
  let w1 := step w (LiveMessage {| toolCall := Some [fc] |}) in
  let w2 := step w1 (PositionSettled (length (suspended w)) g) in
  (r_silentMode env = false -> status w1 = DANGER /\ blackoutMode w1 = false) /\
  (r_silentMode env = true -> status w1 = status w /\ blackoutMode w1 = blackoutMode w) /\
  logs w1 = logs w /\
  suspended w1 = suspended w ++ [alert_of env fc] /\
  logs w2 = entry_of (alert_of env fc) g w1 :: logs w /\
  suspended w2 = suspended w /\
  exists s2, sentinelRef w2 = Some s2 /\ callbacks s2 = callbacks s.
Proof.
  intros Hs Ht env w1 w2.
  assert (E1 : w1 = world_of (microtasks (after_triggers [fc] s w)))
    by (apply step_LiveMessage, Hs).
  assert (Hsusp : suspended w1 = suspended w ++ [alert_of env fc]).
  { rewrite E1. flush_frame (after_triggers [fc] s w).
    unfold after_triggers, triggers. cbn [filter]. rewrite Ht. reflexivity. }
  assert (Hlogs : logs w1 = logs w).
  { rewrite E1. flush_frame (after_triggers [fc] s w).
    unfold after_triggers, triggers. cbn [filter]. rewrite Ht.
    simpl. destruct (r_silentMode (callbacks s)); reflexivity. }
  assert (Hsent : exists s1, sentinelRef w1 = Some s1 /\ callbacks s1 = callbacks s).
  { rewrite E1. flush_frame (after_triggers [fc] s w).
    unfold after_triggers. simpl. eexists. split; [reflexivity|].
    match goal with |- callbacks (f ?x) = _ => destruct (Hf x) as [-> _] end.
    reflexivity. }
  assert (Hn : nth_error (suspended w1) (length (suspended w)) = Some (alert_of env fc)).
  { rewrite Hsusp, nth_error_app2, Nat.sub_diag by lia. reflexivity. }
  destruct (step_PositionSettled (length (suspended w)) g _ Hn) as (c & line & E2).
  fold w2 in E2.
  repeat split.
  - rewrite E1. flush_frame (after_triggers [fc] s w).
    unfold after_triggers, triggers. cbn [filter]. rewrite Ht. fold env. rewrite H. reflexivity.
  - rewrite E1. flush_frame (after_triggers [fc] s w).
    unfold after_triggers, triggers. cbn [filter]. rewrite Ht. fold env. rewrite H. reflexivity.
  - rewrite E1. flush_frame (after_triggers [fc] s w).
    unfold after_triggers, triggers. cbn [filter]. rewrite Ht. fold env. rewrite H. reflexivity.
  - rewrite E1. flush_frame (after_triggers [fc] s w).
    unfold after_triggers, triggers. cbn [filter]. rewrite Ht. fold env. rewrite H. reflexivity.
  - exact Hlogs.
  - exact Hsusp.
  - rewrite E2.
    match goal with |- logs (world_of (microtasks ?X)) = _ => flush_frame X end.
    simpl. rewrite Hlogs. reflexivity.
  - rewrite E2.
    match goal with |- suspended (world_of (microtasks ?X)) = _ => flush_frame X end.
    world_cbn. rewrite Hsusp, firstn_app, Nat.sub_diag, firstn_all, app_nil_r.
    rewrite skipn_all2 by (rewrite length_app; simpl; lia).
    simpl. rewrite app_nil_r. reflexivity.
  - destruct Hsent as (s1 & Hs1 & Hc1). rewrite E2.
    match goal with |- context [world_of (microtasks ?X)] => flush_frame X end.
    world_cbn. rewrite Hs1. world_cbn. eexists. split; [reflexivity|].
    match goal with
    | H : forall s, callbacks (?f s) = _ /\ _ |- callbacks (?f ?x) = _ =>
        destruct (H x) as [-> _]
    end.
    exact Hc1.
Qed.



Lemma acks_app (xs ys : list Effect) : acks (xs ++ ys) = acks xs ++ acks ys.
Proof. apply flat_map_app. Qed.

Lemma acks_positions {A} (l : list A) : acks (map (fun _ => GetCurrentPosition) l) = [].
Proof. induction l; simpl; auto. Qed.

Lemma acks_run_reactions (rs : list Reaction) : acks (map run_reaction rs) = pending_acks rs.
Proof.
  induction rs as [|[pcm|i n r] rs IH]; simpl; [reflexivity | exact IH | now rewrite IH].
Qed.

Lemma pending_acks_app (xs ys : list Reaction) :
  pending_acks (xs ++ ys) = pending_acks xs ++ pending_acks ys.
Proof. apply flat_map_app. Qed.

Lemma pending_acks_reactions (fcs : list FunctionCall) :
  pending_acks (map reaction_of fcs) = map ack_of fcs.
Proof. induction fcs as [|fc fcs IH]; simpl; [reflexivity | now rewrite IH]. Qed.

(** With the controller's callbacks and an open connection, the
    acknowledgments of a message are on the wire when the event is over. *)
Lemma acks_after_message (fcs : list FunctionCall) (w : World) (s : SafetySentinel) :
  sentinelRef w = Some s ->
  sessionPromise s = Some Fulfilled ->
  let w1 := step w (LiveMessage {| toolCall := Some fcs |}) in
  acks (effects w1) =
    acks (effects w) ++ pending_acks (reactions s) ++ map ack_of (triggers fcs) /\
  logs w1 = logs w /\
  suspended w1 = suspended w ++ map (alert_of (callbacks s)) (triggers fcs) /\
  exists s1, sentinelRef w1 = Some s1 /\ reactions s1 = [].
Proof.
  intros Hs Hp w1. unfold w1. rewrite (step_LiveMessage _ _ Hs).
  erewrite microtasks_eval by reflexivity. cbn [sessionPromise set_reactions].
  rewrite Hp. cbn [world_of]. unfold after_triggers.
  set (ts := triggers fcs).
  assert (L : logs match ts with
                   | [] => w
                   | _ :: _ => if r_silentMode (callbacks s) then w
                               else set_blackoutMode false (set_status DANGER w)
                   end = logs w).
  { destruct ts; [reflexivity|]. destruct (r_silentMode (callbacks s)); reflexivity. }
  world_cbn. rewrite L.
  rewrite !acks_app, acks_positions, acks_run_reactions, pending_acks_app,
    pending_acks_reactions, app_nil_r.
  repeat split. eexists. split; reflexivity.
Qed.

End AlertFacts.

(* ================================================================== *)
(** ** The properties *)
(* ================================================================== *)

(** A session whose trigger callback throws receives one trigger on an open
    connection: the handler ends by the throw and nothing is acknowledged. *)
Lemma ack_skipped_when_callback_throws :
  ~ acknowledged throwing_callbacks world_armed (scream None) /\
  threw (handleMessage throwing_callbacks (scream_message None) world_armed) = true /\
  acks (effects (after (handleMessage throwing_callbacks (scream_message None))
                   world_armed)) = [].
Proof.
  split; [|split; reflexivity].
  unfold acknowledged. vm_compute. discriminate.
Qed.

(** C1, amended.  For a trigger, [handleMessage] registers the
    acknowledgment [{id, name, response: {result: "ALERTS_SENT"}}] on the
    session promise once, right after the trigger callback has returned,
    and a callback that throws ends the handler before that.  The
    controller's callback returns at the first [await] of [triggerAlert];
    with it and a fulfilled session promise, handling a message sends one
    acknowledgment per trigger, in order, while every alert of the message
    is still waiting for its evidence and nothing is logged yet. *)
Theorem ack_follows_callback_return
    (interp : Render -> SentinelCallbacks) (w : World) (s : SafetySentinel)
    (fc : FunctionCall) :
  sentinelRef w = Some s ->
  is_trigger fc = true ->
  handleMessage interp {| toolCall := Some [fc] |} w =
    match onEmergencyTriggered (interp (callbacks s))
            (reason (fc_args fc)) (arg_emotion (fc_args fc)) w with
    | Normal _ w' => then_ (reaction_of fc) w'
    | Abrupt e w' => Abrupt e w'
    end /\
  (forall fcs,
     sessionPromise s = Some Fulfilled ->
     let w1 := step w (LiveMessage {| toolCall := Some fcs |}) in
     acks (effects w1) =
       acks (effects w) ++ pending_acks (reactions s) ++ map ack_of (triggers fcs) /\
     logs w1 = logs w /\
     suspended w1 = suspended w ++ map (alert_of (callbacks s)) (triggers fcs)).
Proof.
  intros Hs Ht. split.
  - now apply handleMessage_single.
  - intros fcs Hp.
    destruct (acks_after_message fcs w Hs Hp) as (A & B & C & _).
    repeat split; assumption.
Qed.

Lemma ack_follows_callback_return_witness :
  acks (effects (step world_armed (LiveMessage (scream_message (Some (97 # 100)))))) =
  [("call-1", "triggerEmergency", "ALERTS_SENT")] /\
  logs (step world_armed (LiveMessage (scream_message (Some (97 # 100))))) = [].
Proof.
  destruct (@ack_follows_callback_return app_callbacks world_armed sentinel_armed
              (scream (Some (97 # 100))) eq_refl eq_refl) as [_ H].
  destruct (H [scream (Some (97 # 100))] eq_refl) as (A & B & _).
  split; [exact A | exact B].
Defined.




(** C3 at the failing input: contact entered, ACTIVATE clicked, camera
    granted, microphone denied.  The error is shown and the status is IDLE,
    but the armed flag ends up set. *)
Theorem armed_flag_set_after_microphone_error :
  let w := step (with_answers mic_denied world_ready) ClickToggleArm in
  errorState w =
    {| show := true; title := "Sentinel System Error";
       message := "Microphone permission was denied."; action := None |} /\
  status w = IDLE /\
  wakeLockRef w = None /\
  isArmed w = true.
Proof. vm_compute. repeat split. Qed.

(** Whenever the microphone request of an arm attempt fails, the handler
    ends with the error shown, the status IDLE and the armed flag set. *)
Lemma microphone_error_leaves_armed_flag (w : World) (stream : MediaStream) (e : Thrown) :
  isArmed w = false ->
  name (contact w) <> "" -> phone (contact w) <> "" ->
  camera (answers w) = inl stream ->
  microphone (answers w) = inr e ->
  let w' := world_of (toggleArm (render w) w) in
  errorState w' =
    {| show := true; title := "Sentinel System Error";
       message := start_error_message e; action := None |} /\
  status w' = IDLE /\
  isArmed w' = true.
Proof.
  intros Ha Hn Hp Hc Hm w'.
  destruct (@arm_microphone_failure_eval w stream e Ha Hn Hp Hc Hm) as (w1 & E & S & R).
  unfold w'. rewrite E. cbn [world_of].
  destruct (released_world_frame w1) as (es & -> & _).
  world_cbn. repeat split; assumption.
Qed.

(** Armed and then disarmed: the camera stream is still held and the
    connection still open; and after an arm attempt whose microphone request
    was denied the camera stream is held as well. *)
Lemma camera_and_connection_outlive_disarm :
  ~ nothing_held world_disarmed /\
  held_streams Video (effects world_disarmed) = [1%nat] /\
  transport_open (effects world_disarmed) = true /\
  ~ nothing_held (step (with_answers mic_denied world_ready) ClickToggleArm).
Proof.
  repeat split.
  - intros (_ & H & _). vm_compute in H. discriminate H.
  - intros (_ & H & _). vm_compute in H. discriminate H.
Qed.

(** C4, amended.  A completed disarm stops the tracks of the session's
    microphone stream, disconnects its processor, closes its audio context,
    marks the session not connected and releases the wake lock; these are
    all the requests it makes.  The camera stream stays attached to the
    video element and no request closes the connection.  An error shown by
    [handleError] releases the wake lock and makes no other request. *)
Theorem disarm_releases_microphone_and_wake_lock (w : World) (s : SafetySentinel) :
  isArmed w = true ->
  sentinelRef w = Some s ->
  let w' := world_of (toggleArm (render w) w) in
  threw (toggleArm (render w) w) = false /\
  status w' = IDLE /\ isArmed w' = false /\
  sentinelRef w' = Some (set_isConnected false s) /\
  (forall m, mediaStream s = Some m -> stopped m (effects w') = true) /\
  (forall p, processor s = Some p -> In (ProcessorDisconnect p) (effects w')) /\
  (forall c, audioContext s = Some c -> In (ContextClose c) (effects w')) /\
  wakeLockRef w' = None /\
  (forall h, wakeLockRef w = Some h -> In (WakeLockRelease h) (effects w')) /\
  (exists new,
     effects w' = effects w ++ new /\
     requests new =
       teardown_requests s ++
       match wakeLockRef w with Some h => [WakeLockRelease h] | None => [] end) /\
  videoRef w' = videoRef w /\
  transport_open (effects w') = transport_open (effects w) /\
  (forall t m a,
     let e := world_of (handleError t m a w) in
     wakeLockRef e = None /\
     effects e = effects w ++
       match wakeLockRef w with Some h => [WakeLockRelease h] | None => [] end).
Proof.
  intros Ha Hs w'.
  assert (E : toggleArm (render w) w =
              Normal tt
                (set_blackoutMode false
                   (set_volume (Finite 0)
                      (set_status IDLE
                         (set_isArmed false (released_world (stopped_world w)))))))
    by (apply disarm_eval; exact Ha).
  assert (Est : stopped_world w =
                set_effects (effects w ++ stop_effects s (effects w))
                  (set_sentinelRef (Some (set_isConnected false s)) w))
    by (unfold stopped_world; rewrite Hs; reflexivity).
  destruct (released_world_frame (stopped_world w)) as (es & Er & Ees).
  assert (Ew : wakeLockRef (stopped_world w) = wakeLockRef w) by (rewrite Est; reflexivity).
  rewrite Ew in Ees.
  assert (Eeff : effects w' = effects w ++ stop_effects s (effects w) ++ es).
  { unfold w'. rewrite E. world_cbn. rewrite Er. world_cbn. rewrite Est. world_cbn.
    rewrite <- app_assoc. reflexivity. }
  split; [rewrite E; reflexivity|].
  split; [unfold w'; rewrite E; reflexivity|].
  split; [unfold w'; rewrite E; reflexivity|].
  split; [unfold w'; rewrite E; world_cbn; rewrite Er; world_cbn; rewrite Est; reflexivity|].
  split.
  { intros m Hm. rewrite Eeff. unfold stopped. rewrite !existsb_app.
    unfold stop_effects. rewrite Hm. cbn [app existsb]. rewrite Nat.eqb_refl.
    cbn [orb]. apply orb_true_r. }
  split.
  { intros p Hp. rewrite Eeff. apply in_or_app. right. apply in_or_app. left.
    unfold stop_effects. rewrite Hp. apply in_or_app. right. left. reflexivity. }
  split.
  { intros c Hc. rewrite Eeff. apply in_or_app. right. apply in_or_app. left.
    unfold stop_effects. rewrite Hc. apply in_or_app. right. apply in_or_app. right.
    destruct (existsb _ _); left; reflexivity. }
  split; [unfold w'; rewrite E; world_cbn; rewrite Er; reflexivity|].
  split.
  { intros h Hh. rewrite Eeff, Ees, Hh. apply in_or_app. right. apply in_or_app. right.
    left. reflexivity. }
  split.
  { exists (stop_effects s (effects w) ++ es). split; [exact Eeff|].
    unfold requests. rewrite filter_app. fold (requests (stop_effects s (effects w))).
    rewrite requests_stop_effects. f_equal. rewrite Ees.
    destruct (wakeLockRef w); reflexivity. }
  split; [unfold w'; rewrite E; world_cbn; rewrite Er; world_cbn; rewrite Est; reflexivity|].
  split.
  { rewrite Eeff. unfold transport_open. rewrite !existsb_app.
    assert (N1 : forall f, (f = is_LiveConnect \/ f = is_LiveClose) ->
                 existsb f (stop_effects s (effects w)) = false).
    { intros f [-> | ->]; unfold stop_effects;
        destruct (mediaStream s), (processor s), (audioContext s);
        try destruct (existsb (is_close_of _) (effects w)); reflexivity. }
    assert (N2 : forall f, (f = is_LiveConnect \/ f = is_LiveClose) -> existsb f es = false).
    { intros f [-> | ->]; rewrite Ees; destruct (wakeLockRef w); reflexivity. }
    rewrite !N1, !N2 by auto. rewrite !orb_false_r. reflexivity. }
  intros t m a e. unfold e. rewrite handleError_eval. cbn [world_of].
  match goal with |- context [released_world ?x] =>
    destruct (released_world_frame x) as (es' & -> & ->) end.
  world_cbn. split; reflexivity.
Qed.

Lemma disarm_releases_microphone_and_wake_lock_witness :
  stopped 2%nat (effects (world_of (toggleArm (render world_armed) world_armed))) = true /\
  wakeLockRef (world_of (toggleArm (render world_armed) world_armed)) = None.
Proof.
  destruct (@disarm_releases_microphone_and_wake_lock world_armed sentinel_armed
              eq_refl eq_refl)
    as (_ & _ & _ & _ & M & _ & _ & W & _).
  split; [exact (M 2%nat eq_refl) | exact W].
Defined.



(** C6.  [floatTo16BitPCM] is a total function of its input: the output has
    the length of the input; each output sample lies in the signed 16-bit
    range and within one step of the input sample clamped to [-1, 1] and
    scaled by 32768 when negative and by 32767 otherwise; a NaN sample is
    encoded as 0. *)
Theorem floatTo16BitPCM_spec (input : Float32Array) :
  length (floatTo16BitPCM input) = length input /\
  Forall2 pcm_sample_ok input (floatTo16BitPCM input) /\
  encode_sample NaN = 0%Z.
Proof.
  split; [apply length_map|]. split; [|reflexivity].
  unfold floatTo16BitPCM. induction input as [|x xs IH]; cbn [map].
  - constructor.
  - constructor; [apply encode_sample_ok | exact IH].
Qed.

(** C7.  When the camera request of an arm attempt (contact name and phone
    entered) fails, the handler ends normally with the status back at IDLE,
    the armed flag off, and the error record set to the camera title and the
    message for the failure: one text for a denied permission, one for a
    missing device, one for a busy device, a general one otherwise.  The only
    requests of the attempt are the camera request and the release of a held
    wake lock: no microphone request is made and no session object is
    created. *)
Theorem camera_failure_aborts_arming (w : World) (e : Thrown) :
  isArmed w = false ->
  name (contact w) <> "" ->
  phone (contact w) <> "" ->
  camera (answers w) = inr e ->
  let c := toggleArm (render w) w in
  let w' := world_of c in
  threw c = false /\
  status w' = IDLE /\
  isArmed w' = false /\
  errorState w' =
    {| show := true; title := "Camera Permission Failed";
       message := camera_error_message e; action := None |} /\
  sentinelRef w' = sentinelRef w /\
  (exists new,
     effects w' = effects w ++ new /\
     microphone_requested new = false /\
     new = GetUserMedia Video None ::
           match wakeLockRef w with Some h => [WakeLockRelease h] | None => [] end) /\
  (forall m,
     camera_error_message (ErrorObject "NotAllowedError" m) =
       "You have blocked camera access. Please go to your browser settings and allow camera access for this site to use the safety features." /\
     camera_error_message (ErrorObject "NotFoundError" m) =
       "No camera found on this device." /\
     camera_error_message (ErrorObject "NotReadableError" m) =
       "Your camera is currently in use by another application.").
Proof.
  intros Ha Hn Hp Hc c w'. unfold w', c.
  rewrite (@arm_camera_failure_eval w e Ha Hn Hp Hc). cbn [world_of threw].
  match goal with |- context [released_world ?x] =>
    destruct (released_world_frame x) as (es & -> & Ees) end.
  cbn [wakeLockRef set_isArmed set_status set_errorState set_effects] in Ees.
  world_cbn.
  split; [reflexivity|]. split; [reflexivity|]. split; [reflexivity|].
  split; [reflexivity|]. split; [reflexivity|]. split.
  - exists (GetUserMedia Video None :: es). split.
    + rewrite <- app_assoc. reflexivity.
    + rewrite Ees. split; [|reflexivity]. destruct (wakeLockRef w); reflexivity.
  - intros m. repeat split.
Qed.

Lemma camera_failure_aborts_arming_witness :
  status (world_of (toggleArm (render (with_answers camera_denied world_ready))
                      (with_answers camera_denied world_ready))) = IDLE /\
  microphone_requested
    (effects (world_of (toggleArm (render (with_answers camera_denied world_ready))
                          (with_answers camera_denied world_ready)))) = false.
Proof.
  destruct (@camera_failure_aborts_arming (with_answers camera_denied world_ready)
              (ErrorObject "NotAllowedError" "Permission denied")
              eq_refl ltac:(discriminate) ltac:(discriminate) eq_refl)
    as (_ & S & _ & _ & _ & (new & E & M & _) & _).
  split; [exact S|]. rewrite E. exact M.
Defined.

(** [stop] twice on an armed session: the second call stops, disconnects
    and closes again what the first released, and the second close is
    rejected. *)
Lemma second_stop_closes_closed_context :
  ~ second_stop_quiet world_armed /\
  skipn (length (effects (world_of (stop world_armed))))
        (effects (world_of (stop (world_of (stop world_armed))))) =
  [TrackStop 2%nat; ProcessorDisconnect 3%nat; ContextClose 3%nat;
   UnhandledRejection "InvalidStateError"].
Proof.
  split; [|vm_compute; reflexivity].
  unfold second_stop_quiet. vm_compute. intros [_ H]. discriminate H.
Qed.

(** Two calls of [stop] in a row on the same object. *)
Lemma stop_twice (w : World) (s : SafetySentinel) :
  sentinelRef w = Some s ->
  let c1 := stop w in
  let c2 := stop (world_of c1) in
  threw c1 = false /\ threw c2 = false /\
  sentinelRef (world_of c1) = Some (set_isConnected false s) /\
  sentinelRef (world_of c2) = Some (set_isConnected false s) /\
  (exists new1 new2,
     effects (world_of c1) = effects w ++ new1 /\
     effects (world_of c2) = effects (world_of c1) ++ new2 /\
     requests new1 = teardown_requests s /\
     requests new2 = teardown_requests s) /\
  (mediaStream s = None -> processor s = None -> audioContext s = None ->
   effects (world_of c2) = effects w).
Proof.
  intros Hs. cbv zeta.
  pose proof (@stop_eval w s Hs) as E1.
  set (w1 := set_effects (effects w ++ stop_effects s (effects w))
               (set_sentinelRef (Some (set_isConnected false s)) w)) in E1.
  assert (Hs1 : sentinelRef w1 = Some (set_isConnected false s)) by reflexivity.
  pose proof (@stop_eval w1 _ Hs1) as E2.
  rewrite E1. cbn [world_of threw]. rewrite E2. cbn [world_of threw].
  split; [reflexivity|]. split; [reflexivity|].
  split; [exact Hs1|]. split; [reflexivity|]. split.
  - exists (stop_effects s (effects w)),
           (stop_effects (set_isConnected false s) (effects w1)).
    split; [reflexivity|]. split; [reflexivity|].
    split; [apply requests_stop_effects|].
    rewrite requests_stop_effects. reflexivity.
  - intros Hm Hp Hc. unfold w1. world_cbn.
    unfold stop_effects. cbn [mediaStream processor audioContext set_isConnected].
    rewrite Hm, Hp, Hc. cbn [app]. rewrite !app_nil_r. reflexivity.
Qed.

(** A disarm: never throws, and leaves the page IDLE and disarmed with no
    wake lock. *)
Lemma disarm_rest (env : Render) (w : World) :
  r_isArmed env = true ->
  threw (toggleArm env w) = false /\
  status (world_of (toggleArm env w)) = IDLE /\
  isArmed (world_of (toggleArm env w)) = false /\
  wakeLockRef (world_of (toggleArm env w)) = None.
Proof.
  intros Ha. rewrite (@disarm_eval env w Ha). cbn [world_of threw]. world_cbn.
  repeat split.
  destruct (released_world_frame (stopped_world w)) as (es & -> & _); reflexivity.
Qed.

(** C8, amended.  [stop] can be called any number of times on an object,
    started or not: no call throws, each sets [isConnected] to false and
    leaves the handles of the object in place, so each call issues the same
    teardown requests for the handles held (none for an object that was
    never started), whether or not they were released before.  A disarm
    never throws and leaves the page IDLE and disarmed with no wake lock. *)
Theorem stop_repeatable (w : World) (s : SafetySentinel) :
  sentinelRef w = Some s ->
  let c1 := stop w in
  let c2 := stop (world_of c1) in
  threw c1 = false /\ threw c2 = false /\
  sentinelRef (world_of c1) = Some (set_isConnected false s) /\
  sentinelRef (world_of c2) = Some (set_isConnected false s) /\
  (exists new1 new2,
     effects (world_of c1) = effects w ++ new1 /\
     effects (world_of c2) = effects (world_of c1) ++ new2 /\
     requests new1 = teardown_requests s /\
     requests new2 = teardown_requests s) /\
  (mediaStream s = None -> processor s = None -> audioContext s = None ->
   effects (world_of c2) = effects w) /\
  (forall env w',
     r_isArmed env = true ->
     let d1 := toggleArm env w' in
     let d2 := toggleArm env (world_of d1) in
     threw d1 = false /\ threw d2 = false /\
     status (world_of d1) = IDLE /\ status (world_of d2) = IDLE /\
     isArmed (world_of d1) = false /\ isArmed (world_of d2) = false /\
     wakeLockRef (world_of d1) = None /\ wakeLockRef (world_of d2) = None).
Proof.
  intros Hs. cbv zeta.
  destruct (@stop_twice w s Hs) as (H1 & H2 & H3 & H4 & H5 & H6).
  repeat (split; [assumption|]).
  intros env w' Ha.
  destruct (@disarm_rest env w' Ha) as (A1 & A2 & A3 & A4).
  destruct (@disarm_rest env (world_of (toggleArm env w')) Ha) as (B1 & B2 & B3 & B4).
  repeat (split; [assumption|]). assumption.
Qed.

Lemma stop_repeatable_witness :
  threw (stop (world_of (stop world_connecting))) = false /\
  status (world_of (toggleArm (render world_armed)
                      (world_of (toggleArm (render world_armed) world_armed)))) = IDLE.
Proof.
  destruct (@stop_repeatable world_connecting sentinel_connecting eq_refl)
    as (_ & T & _ & _ & _ & _ & D).
  split; [exact T|].
  destruct (D (render world_armed) world_armed eq_refl) as (_ & _ & _ & I & _).
  exact I.
Defined.

(** The page has a session whose connection is not open yet; an audio frame
    with every bin at 255 arrives and the volume shown stays 0. *)
Lemma volume_not_forwarded_while_connecting :
  ~ volume_forwarded world_connecting [Finite (1 # 2)] loud_bins /\
  option_map isConnected (sentinelRef world_connecting) = Some false /\
  volume (step world_connecting (AudioProcess [Finite (1 # 2)] loud_bins)) = Finite 0.
Proof.
  split; [|split; reflexivity].
  intros H. specialize (H _ _ eq_refl eq_refl). vm_compute in H. discriminate H.
Qed.

(** C9, amended.  The audio frame callback returns at once while the
    session is not connected: nothing is queued and the volume shown stays
    as it is.  While the session is connected (and has its analyser), the
    arithmetic mean of the frequency bins, a value in [0, 255], is computed
    and handed to the volume callback, which for the controller makes it the
    volume shown. *)
Theorem volume_forwarded_only_when_connected
    (interp : Render -> SentinelCallbacks) (w : World) (s : SafetySentinel)
    (inputData : Float32Array) (bins : Uint8Array) :
  sentinelRef w = Some s ->
  (isConnected s = false ->
     onaudioprocess interp inputData bins w = Normal tt w /\
     volume (step w (AudioProcess inputData bins)) = volume w) /\
  (isConnected s = true ->
     forall a,
       analyser s = Some a ->
       (0 < frequencyBinCount a)%Z ->
       exists q,
         average (getByteFrequencyData a bins) = Finite q /\
         0 <= q /\ q <= 255 /\
         (forall forward,
            onVolumeChange (interp (callbacks s)) = Some forward ->
            onaudioprocess interp inputData bins w =
              forward (Finite q)
                (world_of (then_ (ThenSendRealtimeInput (floatTo16BitPCM inputData)) w))) /\
         volume (step w (AudioProcess inputData bins)) = Finite q).
Proof.
  intros Hs. split.
  - intros Hc.
    assert (E : forall i, onaudioprocess i inputData bins w = Normal tt w).
    { intros i. unfold onaudioprocess. js_unfold. rewrite Hs, Hc. reflexivity. }
    split; [apply E|].
    unfold step, after, handler, bind, get. rewrite E. cbn [world_of].
    flush_frame w. reflexivity.
  - intros Hc a Ha Hbins.
    destruct (@average_bounds (getByteFrequencyData a bins)) as (q & Eq & Hlo & Hhi).
    { intros E. pose proof (getByteFrequencyData_length a bins) as L.
      rewrite E in L. cbn in L. lia. }
    exists q. split; [exact Eq|]. split; [exact Hlo|]. split; [exact Hhi|]. split.
    + intros forward Hf. unfold onaudioprocess. js_unfold. rewrite Hs, Hc. simpl.
      rewrite Hs. simpl. rewrite Ha, Hf, Eq. reflexivity.
    + assert (E : onaudioprocess app_callbacks inputData bins w =
                  Normal tt
                    (set_volume (Finite q)
                       (world_of (then_ (ThenSendRealtimeInput (floatTo16BitPCM inputData)) w)))).
      { unfold onaudioprocess. js_unfold. rewrite Hs, Hc. simpl.
        rewrite Hs. simpl. rewrite Ha, Eq. reflexivity. }
      unfold step, after, handler, bind, get. rewrite E. cbn [world_of].
      match goal with |- context [microtasks ?X] => flush_frame X end.
      reflexivity.
Qed.

Lemma volume_forwarded_only_when_connected_witness :
  volume (step world_armed (AudioProcess [Finite (1 # 2)] loud_bins)) =
    Finite (32640 # 128) /\
  onaudioprocess app_callbacks [Finite (1 # 2)] loud_bins world_connecting =
    Normal tt world_connecting.
Proof.
  destruct (@volume_forwarded_only_when_connected app_callbacks world_armed
              sentinel_armed [Finite (1 # 2)] loud_bins eq_refl) as [_ On].
  destruct (@volume_forwarded_only_when_connected app_callbacks world_connecting
              sentinel_connecting [Finite (1 # 2)] loud_bins eq_refl) as [Off _].
  split; [|exact (proj1 (Off eq_refl))].
  destruct (On eq_refl {| fftSize := 256; smoothingTimeConstant := 1 # 2 |}
              eq_refl eq_refl) as (q & A & _ & _ & _ & V).
  rewrite V. rewrite <- A. reflexivity.
Defined.

(** C10.  [stop] leaves the object with [isConnected] false, and a trigger
    that arrives afterwards is handled as before: the trigger callback is
    called (the alert starts, the status shows DANGER unless silent, and the
    entry is logged once the location request is answered) and the
    acknowledgment is registered on the session promise, hence sent when
    that promise is fulfilled. *)
Theorem trigger_handled_after_stop
    (w : World) (s : SafetySentinel) (fc : FunctionCall) (g : GeoOutcome) :
  sentinelRef w = Some s ->
  is_trigger fc = true ->
  let env := callbacks s in
  let w0 := world_of (stop w) in
  let w1 := step w0 (LiveMessage {| toolCall := Some [fc] |}) in
  let w2 := step w1 (PositionSettled (length (suspended w)) g) in
  sentinelRef w0 = Some (set_isConnected false s) /\
  (forall interp,
     handleMessage interp {| toolCall := Some [fc] |} w0 =
     match onEmergencyTriggered (interp env)
             (reason (fc_args fc)) (arg_emotion (fc_args fc)) w0 with
     | Normal _ w' => then_ (reaction_of fc) w'
     | Abrupt e w' => Abrupt e w'
     end) /\
  suspended w1 = suspended w ++ [alert_of env fc] /\
  (r_silentMode env = false -> status w1 = DANGER /\ blackoutMode w1 = false) /\
  (exists entry,
     logs w2 = entry :: logs w /\
     type entry = reason (fc_args fc) /\
     emotion entry = arg_emotion (fc_args fc) /\
     isSilent entry = r_silentMode env) /\
  (sessionPromise s = Some Fulfilled ->
     acks (effects w1) =
       acks (effects w) ++ pending_acks (reactions s) ++ [ack_of fc]) /\
  (sessionPromise s = Some Pending ->
     exists s1, sentinelRef w1 = Some s1 /\
                pending_acks (reactions s1) = pending_acks (reactions s) ++ [ack_of fc]).
Proof.
  intros Hs Ht env w0 w1 w2.
  assert (E0 : w0 = set_effects (effects w ++ stop_effects s (effects w))
                      (set_sentinelRef (Some (set_isConnected false s)) w)).
  { unfold w0. rewrite (stop_eval _ Hs). reflexivity. }
  assert (Hs0 : sentinelRef w0 = Some (set_isConnected false s)) by (rewrite E0; reflexivity).
  assert (Hsusp0 : suspended w0 = suspended w) by (rewrite E0; reflexivity).
  assert (Hlogs0 : logs w0 = logs w) by (rewrite E0; reflexivity).
  destruct (@message_then_position w0 _ fc g Hs0 Ht) as (A & _ & _ & Hsusp & Hl & _).
  cbn [callbacks set_isConnected] in A, Hsusp, Hl.
  rewrite Hsusp0 in Hsusp, Hl. rewrite Hlogs0 in Hl.
  fold w1 in A, Hsusp, Hl. fold w2 in Hl.
  split; [exact Hs0|]. split.
  { intros interp. rewrite (handleMessage_single interp _ _ Hs0 Ht). reflexivity. }
  split; [exact Hsusp|]. split; [exact A|]. split.
  { eexists. split; [exact Hl|]. repeat split. }
  split.
  - intros Hp.
    destruct (@acks_after_message [fc] w0 _ Hs0 Hp) as (Ha & _).
    fold w1 in Ha. rewrite Ha. unfold triggers. cbn [filter]. rewrite Ht.
    rewrite E0. cbn [effects set_effects reactions set_isConnected map].
    rewrite acks_app.
    assert (acks (stop_effects s (effects w)) = []) as ->.
    { unfold stop_effects.
      destruct (mediaStream s), (processor s), (audioContext s); simpl;
        repeat match goal with |- context [existsb ?f ?l] => destruct (existsb f l) end;
        reflexivity. }
    rewrite app_nil_r. reflexivity.
  - intros Hp. unfold w1. rewrite (step_LiveMessage _ _ Hs0).
    erewrite microtasks_eval by reflexivity.
    cbn [sessionPromise set_reactions set_isConnected]. rewrite Hp. cbn [world_of].
    unfold after_triggers, triggers. cbn [filter]. rewrite Ht.
    eexists. split; [reflexivity|].
    cbn [reactions set_reactions set_isConnected map].
    rewrite pending_acks_app. reflexivity.
Qed.

Lemma trigger_handled_after_stop_witness :
  exists entry,
    logs (run (world_of (stop world_armed))
            [LiveMessage (scream_message None); PositionSettled 0 GeoTimeout]) =
      [entry] /\
    type entry = "chaotic scream" /\
    acks (effects (step (world_of (stop world_armed))
                     (LiveMessage (scream_message None)))) =
      [("call-1", "triggerEmergency", "ALERTS_SENT")].
Proof.
  destruct (@trigger_handled_after_stop world_armed sentinel_armed (scream None)
              GeoTimeout eq_refl eq_refl) as (_ & _ & _ & _ & (entry & E & T & _) & A & _).
  exists entry. split; [exact E|]. split; [exact T|]. exact (A eq_refl).
Defined.

(* ================================================================== *)
(** ** Further properties of the controller *)
(* ================================================================== *)


(** X2.  An arm attempt with an empty contact name or phone is the error
    "Setup Required" and nothing else: no camera or microphone request is
    made and no session object is created. *)
Theorem arming_requires_contact (w : World) :
  isArmed w = false ->
  name (contact w) = "" \/ phone (contact w) = "" ->
  let c := toggleArm (render w) w in
  c = handleError "Setup Required"
        "Please enter an emergency contact name and phone number." None w /\
  status (world_of c) = IDLE /\
  sentinelRef (world_of c) = sentinelRef w /\
  effects (world_of c) =
    effects w ++ match wakeLockRef w with Some h => [WakeLockRelease h] | None => [] end.
Proof.
  intros Ha Hc c.
  assert (E : c = handleError "Setup Required"
                    "Please enter an emergency contact name and phone number." None w).
  { unfold c, toggleArm. cbn [render r_isArmed r_contact]. rewrite Ha.
    destruct Hc as [-> | ->]; [reflexivity|].
    rewrite orb_true_r. reflexivity. }
  split; [exact E|]. rewrite E, handleError_eval. cbn [world_of].
  match goal with |- context [released_world ?x] =>
    destruct (released_world_frame x) as (es & -> & ->) end.
  repeat split.
Qed.

Lemma arming_requires_contact_witness :
  status (world_of (toggleArm (render world0) world0)) = IDLE /\
  effects (world_of (toggleArm (render world0) world0)) = [].
Proof.
  destruct (@arming_requires_contact world0 eq_refl (or_introl eq_refl))
    as (_ & S & _ & E).
  split; [exact S | exact E].
Defined.

(** X3.  After a disarm the audio frame callback of the stopped session does
    nothing: no frame is queued for transmission and the page is left as it
    is. *)
Theorem frame_after_disarm_sends_nothing
    (w : World) (s : SafetySentinel) (inputData : Float32Array) (bins : Uint8Array) :
  isArmed w = true ->
  sentinelRef w = Some s ->
  let w1 := world_of (toggleArm (render w) w) in
  onaudioprocess app_callbacks inputData bins w1 = Normal tt w1.
Proof.
  intros Ha Hs w1.
  assert (H1 : sentinelRef w1 = Some (set_isConnected false s)).
  { unfold w1. rewrite (@disarm_eval (render w) w Ha). cbn [world_of]. world_cbn.
    match goal with |- context [released_world ?x] =>
      destruct (released_world_frame x) as (es & -> & _) end.
    world_cbn. unfold stopped_world. rewrite Hs. reflexivity. }
  unfold onaudioprocess. js_unfold. rewrite H1. reflexivity.
Qed.

Lemma frame_after_disarm_sends_nothing_witness :
  onaudioprocess app_callbacks [Finite (1 # 2)] loud_bins
    (world_of (toggleArm (render world_armed) world_armed)) =
  Normal tt (world_of (toggleArm (render world_armed) world_armed)).
Proof.
  exact (@frame_after_disarm_sends_nothing world_armed sentinel_armed
           [Finite (1 # 2)] loud_bins eq_refl eq_refl).
Defined.

(** X4.  Contact entered, ACTIVATE clicked, camera, microphone and
    connection granted, connection opened: the page is ARMED and armed, and
    holds the wake lock, the camera stream and the microphone stream. *)
Theorem arming_reaches_armed :
  let w := run world0 [InputContact mom; ClickToggleArm; ConnectSettled true; LiveOpen] in
  status w = ARMED /\ isArmed w = true /\ wakeLockRef w = Some 4%nat /\
  held_wakeLocks (effects w) = [4%nat] /\
  held_streams Video (effects w) = [1%nat] /\
  held_streams Audio (effects w) = [2%nat] /\
  show (errorState w) = false.
Proof. vm_compute. repeat split. Qed.

(** X5.  An error of the connection reported to a session puts the page in
    the disarmed rest state: the error is shown under "Sentinel System
    Error" (with "Connection error" when the error carries no message), the
    status is IDLE, the armed flag is off and the wake lock is released. *)
Theorem connection_error_disarms (w : World) (s : SafetySentinel) (msg : option string) :
  sentinelRef w = Some s ->
  let w' := step w (LiveError msg) in
  errorState w' =
    {| show := true; title := "Sentinel System Error";
       message := match msg with
                  | Some m => if m =? "" then "Connection error" else m
                  | None => "Connection error"
                  end;
       action := None |} /\
  status w' = IDLE /\ isArmed w' = false /\ wakeLockRef w' = None.
Proof.
  intros Hs w'.
  assert (E : handler (LiveError msg) w =
              handleError "Sentinel System Error"
                match msg with
                | Some m => if m =? "" then "Connection error" else m
                | None => "Connection error"
                end None w).
  { unfold handler, onerror. js_unfold. rewrite Hs. reflexivity. }
  unfold w', step, after. rewrite E, handleError_eval. cbn [world_of].
  match goal with |- context [microtasks ?X] => flush_frame X end.
  world_cbn.
  match goal with |- context [released_world ?x] =>
    destruct (released_world_frame x) as (es' & -> & _) end.
  repeat split.
Qed.

Lemma connection_error_disarms_witness :
  status (step world_armed (LiveError None)) = IDLE /\
  isArmed (step world_armed (LiveError None)) = false /\
  wakeLockRef (step world_armed (LiveError None)) = None.
Proof.
  destruct (@connection_error_disarms world_armed sentinel_armed None eq_refl)
    as (_ & S & A & W).
  repeat split; assumption.
Defined.
